(** * TwoAxisPolygonClip: a shallow embedding of the two-pass, two-axis
      polygon clipper of [src/TwoAxisPolygonClip.c], and the properties of
      its specification.

    The C function walks the source polygon once per axis.  Each pass keeps
    a current start point [(rx1, ry1)], reads the end point of the edge from
    the array it clips, writes zero, one or two vertices into its
    destination array and advances.  The embedding keeps that shape: the
    locals of a pass are a record, the arrays are lists updated by index,
    and everything that is undefined in C (a read or write outside an
    array, a division by zero, an overflow of [int] arithmetic) is a fault
    of an error monad.  The three arrays of a call are taken to be
    distinct objects.

    Integer model: [int16_t] values are integers of [-32768, 32767]; the
    usual arithmetic conversions compute in [int], taken to be 32 bits wide;
    storing an [int] into an [int16_t] reduces it modulo 2^16; [/] truncates
    towards zero ([Z.quot]). *)

From Stdlib Require Import ZArith Lia List Bool.
From stdpp Require Import base list.

Local Open Scope Z_scope.

(** ** Faults and the error monad *)

Inductive fault : Type :=
  | DivideByZero
  | SignedOverflow
  | OutOfBounds.

Inductive result (A : Type) : Type :=
  | Ok (a : A)
  | Fault (f : fault).

Arguments Ok {A} a.
Arguments Fault {A} f.

(** Sequencing stops at the first fault; [x ← m; k] is stdpp's notation for
    [mbind]. *)
#[global] Instance result_bind : MBind result := λ A B k m,
  match m with
  | Ok a => k a
  | Fault f => Fault f
  end.

(** ** Machine integers *)

Definition INT_MIN : Z := -2147483648.
Definition INT_MAX : Z := 2147483647.

Definition in_int (z : Z) : bool := (INT_MIN <=? z) && (z <=? INT_MAX).

(** The value of an [int] operation whose mathematical result is [z]. *)
Definition checked (z : Z) : result Z :=
  if in_int z then Ok z else Fault SignedOverflow.

Definition int_add (a b : Z) : result Z := checked (a + b).
Definition int_sub (a b : Z) : result Z := checked (a - b).
Definition int_mul (a b : Z) : result Z := checked (a * b).
Definition int_div (a b : Z) : result Z :=
  if b =? 0 then Fault DivideByZero else checked (Z.quot a b).

(** Conversion of an [int] to [int16_t]. *)
Definition to_int16 (z : Z) : Z := (z + 32768) mod 65536 - 32768.

Definition int16_range (z : Z) : Prop := -32768 <= z <= 32767.

(** ** Data

    The header [TwoAxisPolygonClip.h] is not part of the sources; the two
    structures are taken as the function uses them. *)

(** Modelled from the spec: [struct vertex] of the missing header
    [TwoAxisPolygonClip.h], a 2-D point with two signed 16-bit coordinates
    [x] and [y]. *)
Record vertex : Type := mkVertex { x : Z; y : Z }.

(** Modelled from the spec: [struct clipRect] of the missing header
    [TwoAxisPolygonClip.h], four signed 16-bit bounds. *)
Record clipRect : Type := mkClipRect {
  clipLeft : Z;
  clipRight : Z;
  clipTop : Z;
  clipBottom : Z
}.

Definition vertex_eqb (a b : vertex) : bool :=
  (x a =? x b) && (y a =? y b).

(** ** Arrays

    An array is the list of its elements; its length is its capacity.
    Reading or writing outside of it is a fault. *)

Definition load (a : list vertex) (i : Z) : result vertex :=
  if i <? 0 then Fault OutOfBounds
  else match a !! Z.to_nat i with
       | Some v => Ok v
       | None => Fault OutOfBounds
       end.

(** [a[i].x = v] *)
Definition store_x (a : list vertex) (i : Z) (v : Z) : result (list vertex) :=
  if i <? 0 then Fault OutOfBounds
  else match a !! Z.to_nat i with
       | Some old => Ok (<[Z.to_nat i := mkVertex v (y old)]> a)
       | None => Fault OutOfBounds
       end.

(** [a[i].y = v] *)
Definition store_y (a : list vertex) (i : Z) (v : Z) : result (list vertex) :=
  if i <? 0 then Fault OutOfBounds
  else match a !! Z.to_nat i with
       | Some old => Ok (<[Z.to_nat i := mkVertex (x old) v]> a)
       | None => Fault OutOfBounds
       end.

(** ** The locals of a pass *)

Record pass_state : Type := mkState {
  rx1 : Z;
  ry1 : Z;
  pIndex : Z;
  dest : list vertex
}.

Definition set_start (s : pass_state) (nx ny : Z) : pass_state :=
  mkState nx ny (pIndex s) (dest s).

(** [dest[pIndex].x = vx; dest[pIndex++].y = vy;] *)
Definition emit_x_then_y (s : pass_state) (vx vy : Z) : result pass_state :=
  d1 ← store_x (dest s) (pIndex s) vx;
  d2 ← store_y d1 (pIndex s) vy;
  Ok (mkState (rx1 s) (ry1 s) (to_int16 (pIndex s + 1)) d2).

(** [dest[pIndex].y = vy; dest[pIndex++].x = vx;] *)
Definition emit_y_then_x (s : pass_state) (vx vy : Z) : result pass_state :=
  d1 ← store_y (dest s) (pIndex s) vy;
  d2 ← store_x d1 (pIndex s) vx;
  Ok (mkState (rx1 s) (ry1 s) (to_int16 (pIndex s + 1)) d2).

(** ** Interpolation

    All eight interpolations of the source are the one expression
    [u1 + ((u2 - u1) * (c - t1)) / (t2 - t1)], where [(t1, u1)] and
    [(t2, u2)] are the two ends of the edge ([t] on the axis being clipped,
    [u] on the other one) and [c] is the clip bound.  The value is an
    [int]; the caller stores it into an [int16_t]. *)
Definition lerp (t1 u1 t2 u2 c : Z) : result Z :=
  du ← int_sub u2 u1;
  dc ← int_sub c t1;
  p ← int_mul du dc;
  dt ← int_sub t2 t1;
  q ← int_div p dt;
  int_add u1 q.

(** ** The loops

    Both loops are [while (nVertices--) { body }] over an [int16_t] counter:
    the body runs with the counter already decremented, down to 0.  [k] is
    the number of iterations left. *)
Fixpoint while_dec (body : Z -> pass_state -> result pass_state)
    (k : nat) (s : pass_state) : result pass_state :=
  match k with
  | O => Ok s
  | S k' =>
      s' ← body (to_int16 (Z.of_nat k')) s;
      while_dec body k' s'
  end.

(** ** The X pass (source lines 87 to 136) *)

(** One iteration of the first [while] loop; [nVertices] is the value of the
    counter after its decrement. *)
Definition x_edge (clip_left clip_right : Z) (sourcePolygon : list vertex)
    (nVertices : Z) (s : pass_state) : result pass_state :=
  v2 ← load sourcePolygon nVertices;
  let rx2 := x v2 in
  let ry2 := y v2 in
  let ox1 := rx2 in
  let oy1 := ry2 in
  s' ← (if rx1 s >? rx2 then
           if (rx1 s <? clip_left) || (rx2 >? clip_right) then Ok s
           else
             s1 ← (if rx1 s >? clip_right then
                      v ← lerp (rx1 s) (ry1 s) rx2 ry2 clip_right;
                      Ok (set_start s clip_right (to_int16 v))
                    else Ok s);
             s2 ← emit_x_then_y s1 (rx1 s1) (ry1 s1);
             if rx2 <? clip_left then
               v ← lerp rx2 ry2 (rx1 s2) (ry1 s2) clip_left;
               emit_y_then_x s2 clip_left (to_int16 v)
             else Ok s2
         else
           if (rx2 <? clip_left) || (rx1 s >? clip_right) then Ok s
           else
             s1 ← (if rx1 s <? clip_left then
                      v ← lerp (rx1 s) (ry1 s) rx2 ry2 clip_left;
                      Ok (set_start s clip_left (to_int16 v))
                    else Ok s);
             s2 ← emit_x_then_y s1 (rx1 s1) (ry1 s1);
             if rx2 >? clip_right then
               v ← lerp rx2 ry2 (rx1 s2) (ry1 s2) clip_right;
               emit_y_then_x s2 clip_right (to_int16 v)
             else Ok s2);
  Ok (set_start s' ox1 oy1).

(** The first loop, with [k] iterations left. *)
Definition x_pass (clip_left clip_right : Z) (sourcePolygon : list vertex)
    (k : nat) (s : pass_state) : result pass_state :=
  while_dec (x_edge clip_left clip_right sourcePolygon) k s.

(** ** The Y pass (source lines 151 to 194) *)

Definition y_edge (clip_top clip_bottom : Z) (clipBuffer : list vertex)
    (nVertices : Z) (s : pass_state) : result pass_state :=
  v2 ← load clipBuffer nVertices;
  let rx2 := x v2 in
  let ry2 := y v2 in
  let ox1 := rx2 in
  let oy1 := ry2 in
  s' ← (if ry1 s >? ry2 then
           if (ry1 s <? clip_top) || (ry2 >? clip_bottom) then Ok s
           else
             s1 ← (if ry1 s >? clip_bottom then
                      v ← lerp (ry1 s) (rx1 s) ry2 rx2 clip_bottom;
                      Ok (set_start s (to_int16 v) clip_bottom)
                    else Ok s);
             s2 ← emit_x_then_y s1 (rx1 s1) (ry1 s1);
             if ry2 <? clip_top then
               v ← lerp ry2 rx2 (ry1 s2) (rx1 s2) clip_top;
               emit_x_then_y s2 (to_int16 v) clip_top
             else Ok s2
         else
           if (ry2 <? clip_top) || (ry1 s >? clip_bottom) then Ok s
           else
             s1 ← (if ry1 s <? clip_top then
                      v ← lerp (ry1 s) (rx1 s) ry2 rx2 clip_top;
                      Ok (set_start s (to_int16 v) clip_top)
                    else Ok s);
             s2 ← emit_x_then_y s1 (rx1 s1) (ry1 s1);
             if ry2 >? clip_bottom then
               v ← lerp ry2 rx2 (ry1 s2) (rx1 s2) clip_bottom;
               emit_x_then_y s2 (to_int16 v) clip_bottom
             else Ok s2);
  Ok (set_start s' ox1 oy1).

(** The second loop, with [k] iterations left. *)
Definition y_pass (clip_top clip_bottom : Z) (clipBuffer : list vertex)
    (k : nat) (s : pass_state) : result pass_state :=
  while_dec (y_edge clip_top clip_bottom clipBuffer) k s.

(** ** The function

    The number of iterations of [while (n--)] for an [int16_t] counter [n]:
    [n] itself when it is not negative; a negative counter is decremented
    until it wraps around. *)
Definition iterations (n : Z) : nat := Z.to_nat (n mod 65536).

(** The result is the returned count with the final contents of
    [clipBuffer] and of [clippedPolygon]. *)
Definition TwoAxisPolygonClip (sourcePolygon : list vertex) (nVertices : Z)
    (clipRectangle : clipRect) (clipBuffer clippedPolygon : list vertex)
    : result (Z * list vertex * list vertex) :=
  let clip_left := clipLeft clipRectangle in
  let clip_right := clipRight clipRectangle in
  let clip_bottom := clipBottom clipRectangle in
  let clip_top := clipTop clipRectangle in
  v0 ← load sourcePolygon 0;
  s ← x_pass clip_left clip_right sourcePolygon (iterations nVertices)
         (mkState (x v0) (y v0) 0 clipBuffer);
  if pIndex s <? 3 then Ok (pIndex s, dest s, clippedPolygon)
  else
    let nVertices := pIndex s in
    w0 ← load (dest s) 0;
    s' ← y_pass clip_top clip_bottom (dest s) (iterations nVertices)
            (mkState (x w0) (y w0) 0 clippedPolygon);
    Ok (pIndex s', dest s, dest s').


(** * Predicates of the specification *)

(** What one pair of stores does: the vertex [v] is written at [pIndex],
    which is inside the array, and [pIndex] is incremented. *)
Definition emits (s : pass_state) (v : vertex) (s' : pass_state) : Prop :=
  0 <= pIndex s < Z.of_nat (length (dest s)) /\
  s' = mkState (rx1 s) (ry1 s) (to_int16 (pIndex s + 1))
         (<[Z.to_nat (pIndex s) := v]> (dest s)).


(** [pIndex] holds an [int16_t] within the destination, and every vertex
    written so far, the entries below [pIndex], satisfies [P]. *)
Definition emitted_all (P : vertex -> Prop) (s : pass_state) : Prop :=
  int16_range (pIndex s) /\
  pIndex s <= Z.of_nat (length (dest s)) /\
  Forall P (take (Z.to_nat (pIndex s)) (dest s)).

Definition in_x (lo hi : Z) (v : vertex) : Prop := lo <= x v <= hi.
Definition in_y (lo hi : Z) (v : vertex) : Prop := lo <= y v <= hi.

(** A point of the clip region, bounds included. *)
Definition inside (r : clipRect) (v : vertex) : Prop :=
  in_x (clipLeft r) (clipRight r) v /\ in_y (clipTop r) (clipBottom r) v.

(** The invariant of a clip region: [left <= right] and [top <= bottom]. *)
Definition valid_region (r : clipRect) : Prop :=
  clipLeft r <= clipRight r /\ clipTop r <= clipBottom r.

(** What the X pass can write for the edge from [a] to [b]: a vertex
    between the two X bounds whose [y] lies between those of [a] and [b]. *)
Definition x_clipped (clip_left clip_right : Z) (a b e : vertex) : Prop :=
  in_x clip_left clip_right e /\
  forall lo hi, int16_range lo -> int16_range hi ->
    in_y lo hi a -> in_y lo hi b -> in_y lo hi e.

(** The same for the Y pass. *)
Definition y_clipped (clip_top clip_bottom : Z) (a b e : vertex) : Prop :=
  in_y clip_top clip_bottom e /\
  forall lo hi, int16_range lo -> int16_range hi ->
    in_x lo hi a -> in_x lo hi b -> in_x lo hi e.

(** The bound [c] lies on the edge, beyond its end [t1]. *)
Definition crosses (t1 t2 c : Z) : Prop :=
  t1 < c <= t2 \/ t2 <= c < t1.

(** The four bounds of a region are [int16_t] values. *)
Definition int16_region (r : clipRect) : Prop :=
  int16_range (clipLeft r) /\ int16_range (clipRight r) /\
  int16_range (clipTop r) /\ int16_range (clipBottom r).

(** A computation that ends without a fault. *)
Definition no_fault {A : Type} (m : result A) : Prop := exists a, m = Ok a.

(** Coordinates for which no interpolation overflows an [int]: the product
    of two differences of such coordinates is at most
    [(2 * 23170)^2 = 2147395600 <= INT_MAX]. *)
Definition safe_coord (z : Z) : Prop := -23170 <= z <= 23170.

Definition safe_vertex (v : vertex) : Prop :=
  safe_coord (x v) /\ safe_coord (y v).

(** All vertices of [p] lie strictly beyond one and the same bound: the
    left or the right one, ... *)
Definition beyond_x (r : clipRect) (p : list vertex) : Prop :=
  Forall (fun v => x v < clipLeft r) p \/
  Forall (fun v => clipRight r < x v) p.

(** ... the top or the bottom one. *)
Definition beyond_y (r : clipRect) (p : list vertex) : Prop :=
  Forall (fun v => y v < clipTop r) p \/
  Forall (fun v => clipBottom r < y v) p.

Definition beyond_single_bound (r : clipRect) (p : list vertex) : Prop :=
  beyond_x r p \/ beyond_y r p.

(** A vertex whose coordinates are [int16_t] values. *)
Definition int16_vertex (v : vertex) : Prop :=
  int16_range (x v) /\ int16_range (y v).

(** No interpolation between two vertices of [p] overflows an [int]: for
    any two of them the product of their distances along the two axes is
    at most [INT_MAX].  It holds when the width of the bounding box of
    [p] times its height is at most [INT_MAX]. *)
Definition extent_fits_int (p : list vertex) : Prop :=
  forall a b, a ∈ p -> b ∈ p ->
    Z.abs (x b - x a) * Z.abs (y b - y a) <= INT_MAX.

(** What makes every step of the X pass defined when it has to clip:
    [left <= right], [int16_t] coordinates whose interpolations cannot
    overflow, and a scratch buffer with two entries per source vertex,
    which an [int16_t] can count. *)
Definition x_pass_preconditions (r : clipRect) (p clipBuffer : list vertex)
    : Prop :=
  clipLeft r <= clipRight r /\
  Forall int16_vertex p /\ extent_fits_int p /\
  2 * Z.of_nat (length p) <= Z.of_nat (length clipBuffer) /\
  2 * Z.of_nat (length p) <= 32767.

(** The first half of the function, source lines 81 to 136: the read of
    [sourcePolygon[0]] and the X pass. *)
Definition x_pass_of_call (sourcePolygon : list vertex) (nVertices : Z)
    (r : clipRect) (clipBuffer : list vertex) : result pass_state :=
  v0 ← load sourcePolygon 0;
  x_pass (clipLeft r) (clipRight r) sourcePolygon (iterations nVertices)
    (mkState (x v0) (y v0) 0 clipBuffer).

(** The cheap bounds test of the X pass (source lines 94 to 97 and 116 to
    117) for an edge that starts at [rx1] and ends at [rx2]. *)
Definition x_rejected (clip_left clip_right rx1 rx2 : Z) : bool :=
  if rx1 >? rx2 then (rx1 <? clip_left) || (rx2 >? clip_right)
  else (rx2 <? clip_left) || (rx1 >? clip_right).

(** Twice the signed area of the triangle [a b c]. *)
Definition cross (a b c : vertex) : Z :=
  (x b - x a) * (y c - y a) - (y b - y a) * (x c - x a).

(** A triangle with three vertices that are not aligned: a convex
    polygon. *)
Definition proper_triangle (p : list vertex) : bool :=
  match p with
  | [a; b; c] => negb (cross a b c =? 0)
  | _ => false
  end.

(** Some edge of the closed polygon [l] has length zero: two vertices that
    follow each other, the last one and the first one included, are
    equal. *)
Fixpoint adjacent_equal (first : vertex) (l : list vertex) : bool :=
  match l with
  | [] => false
  | [a] => vertex_eqb a first
  | a :: (b :: _) as t => vertex_eqb a b || adjacent_equal first t
  end.

Definition has_zero_length_edge (l : list vertex) : bool :=
  match l with
  | [] => false
  | a :: _ => adjacent_equal a l
  end.

Definition vertex_in (v : vertex) (l : list vertex) : bool :=
  existsb (vertex_eqb v) l.

(** ** The polygons and regions of the examples *)

Definition square : list vertex :=
  [mkVertex 0 0; mkVertex 10 0; mkVertex 10 10; mkVertex 0 10].

Definition square_region : clipRect := mkClipRect 5 15 (-5) 15.

(** Two triangles on either side of the edge from (11,0) to (-5,3), which
    crosses both X bounds of [strip]. *)
Definition upper_triangle : list vertex :=
  [mkVertex 11 0; mkVertex 3 10; mkVertex (-5) 3].

Definition lower_triangle : list vertex :=
  [mkVertex (-5) 3; mkVertex 3 (-10); mkVertex 11 0].

Definition strip : clipRect := mkClipRect 0 10 (-20) 20.

(** A triangle that cuts three corners off the region [box]. *)
Definition wide_triangle : list vertex :=
  [mkVertex 10 (-6); mkVertex 31 15; mkVertex (-32) 36].

Definition box : clipRect := mkClipRect 0 20 0 20.

(** A triangle with the vertex (5,0) on the left bound of
    [square_region]. *)
Definition touching_triangle : list vertex :=
  [mkVertex 10 10; mkVertex 0 5; mkVertex 5 0].

(** A triangle to the left of a region whose left bound is 100. *)
Definition left_triangle : list vertex :=
  [mkVertex 0 0; mkVertex 20 0; mkVertex 10 20].

Definition far_region : clipRect := mkClipRect 100 200 0 100.

(** A triangle near the end of the [int16_t] range, above a region whose
    top bound is 100. *)
Definition high_triangle : list vertex :=
  [mkVertex 30000 0; mkVertex 30010 0; mkVertex 30005 5].

Definition low_region : clipRect := mkClipRect 0 32000 100 200.

Definition blank (n : nat) : list vertex := repeat (mkVertex 0 0) n.

(** * Further predicates *)

(** The vertex with its two coordinates exchanged, and a pass state seen
    with the two axes exchanged. *)
Definition swap (v : vertex) : vertex := mkVertex (y v) (x v).

Definition swap_state (s : pass_state) : pass_state :=
  mkState (ry1 s) (rx1 s) (pIndex s) (swap <$> dest s).

Definition result_map {A B : Type} (f : A -> B) (m : result A) : result B :=
  match m with
  | Ok a => Ok (f a)
  | Fault e => Fault e
  end.

(** A box with sides parallel to the axes. *)
Definition in_box (xlo xhi ylo yhi : Z) (v : vertex) : Prop :=
  in_x xlo xhi v /\ in_y ylo yhi v.

(** [e] lies in every box that holds [a] and [b] and whose bounds are
    [int16_t] values. *)
Definition boxed_by (a b e : vertex) : Prop :=
  forall xlo xhi ylo yhi,
    int16_range xlo -> int16_range xhi ->
    int16_range ylo -> int16_range yhi ->
    in_box xlo xhi ylo yhi a -> in_box xlo xhi ylo yhi b ->
    in_box xlo xhi ylo yhi e.

(** The destination of a pass, which was [d0] when the pass began, has
    kept its size and, from [pIndex] on, its entries. *)
Definition untouched_from (d0 : list vertex) (s : pass_state) : Prop :=
  int16_range (pIndex s) /\
  length (dest s) = length d0 /\
  (0 <= pIndex s ->
   drop (Z.to_nat (pIndex s)) (dest s) = drop (Z.to_nat (pIndex s)) d0).

(** The start point of a pass and all it has written lie in a box. *)
Definition boxed_state (xlo xhi ylo yhi : Z) (s : pass_state) : Prop :=
  in_box xlo xhi ylo yhi (mkVertex (rx1 s) (ry1 s)) /\
  emitted_all (in_box xlo xhi ylo yhi) s.

(** Two runs of a pass, into two destinations of one size, are at the same
    point: same start, same [pIndex], same vertices written so far. *)
Definition same_so_far (s1 s2 : pass_state) : Prop :=
  rx1 s1 = rx1 s2 /\ ry1 s1 = ry1 s2 /\ pIndex s1 = pIndex s2 /\
  int16_range (pIndex s1) /\
  length (dest s1) = length (dest s2) /\
  take (Z.to_nat (pIndex s1)) (dest s1)
    = take (Z.to_nat (pIndex s1)) (dest s2).

(** Two computations end in related values or in the same fault. *)
Definition result_rel {A : Type} (R : A -> A -> Prop) (m1 m2 : result A)
    : Prop :=
  match m1, m2 with
  | Ok a, Ok b => R a b
  | Fault f, Fault g => f = g
  | _, _ => False
  end.

(** The outcome of a call as its caller sees it: the count and, for a
    visible result, the vertices below the count. *)
Definition same_outcome (o1 o2 : Z * list vertex * list vertex) : Prop :=
  let '(c1, _, cp1) := o1 in
  let '(c2, _, cp2) := o2 in
  c1 = c2 /\ (3 <= c1 -> take (Z.to_nat c1) cp1 = take (Z.to_nat c1) cp2).
(** * Properties *)

(** ** The error monad *)

Lemma bind_Ok {A B : Type} (m : result A) (k : A -> result B) (b : B) :
  (m ≫= k) = Ok b <-> exists a, m = Ok a /\ k a = Ok b.
Proof.
  destruct m as [a|f]; simpl; split.
  - intros H. exists a. split; [reflexivity | exact H].
  - intros (a' & Ha & Hk). injection Ha as <-. exact Hk.
  - discriminate.
  - intros (a' & Ha & _). discriminate.
Qed.

Lemma bind_Ok_l {A B : Type} (a : A) (k : A -> result B) :
  (Ok a ≫= k) = k a.
Proof. reflexivity. Qed.

Lemma bind_not_fault {A B : Type} (m : result A) (k : A -> result B)
    (f : fault) :
  m <> Fault f -> (forall a, m = Ok a -> k a <> Fault f) ->
  (m ≫= k) <> Fault f.
Proof.
  destruct m as [a|g]; simpl; intros Hm Hk.
  - apply Hk. reflexivity.
  - intros E. apply Hm. injection E as ->. reflexivity.
Qed.

(** ** Machine integers *)

Lemma to_int16_id (z : Z) : int16_range z -> to_int16 z = z.
Proof.
  unfold int16_range, to_int16. intros H.
  rewrite Z.mod_small by lia. lia.
Qed.

Lemma to_int16_range (z : Z) : int16_range (to_int16 z).
Proof.
  unfold int16_range, to_int16.
  pose proof (Z.mod_pos_bound (z + 32768) 65536 ltac:(lia)). lia.
Qed.

Lemma to_int16_le (z : Z) : -32768 <= z -> to_int16 z <= z.
Proof.
  unfold to_int16. intros H.
  pose proof (Z.mod_le (z + 32768) 65536 ltac:(lia) ltac:(lia)). lia.
Qed.

Lemma checked_Ok (z v : Z) :
  checked z = Ok v <-> v = z /\ INT_MIN <= z <= INT_MAX.
Proof.
  unfold checked, in_int.
  destruct (INT_MIN <=? z) eqn:E1; destruct (z <=? INT_MAX) eqn:E2; simpl;
    split; intros H; try discriminate; try lia.
  - injection H as <-. lia.
  - destruct H as [-> _]. reflexivity.
Qed.

Lemma checked_in (z : Z) : INT_MIN <= z <= INT_MAX -> checked z = Ok z.
Proof. intros H. apply checked_Ok. auto. Qed.

Lemma checked_not_div (z : Z) : checked z <> Fault DivideByZero.
Proof. unfold checked. destruct (in_int z); discriminate. Qed.

(** ** Arrays *)

Lemma load_Ok (a : list vertex) (i : Z) (v : vertex) :
  load a i = Ok v <-> 0 <= i /\ a !! Z.to_nat i = Some v.
Proof.
  unfold load. destruct (i <? 0) eqn:E.
  - split; [discriminate | lia].
  - destruct (a !! Z.to_nat i) as [w|]; split; intros H;
      try discriminate.
    + injection H as <-. split; [lia | reflexivity].
    + destruct H as [_ H]. injection H as <-. reflexivity.
    + destruct H as [_ H]. discriminate.
Qed.

Lemma load_not_div (a : list vertex) (i : Z) : load a i <> Fault DivideByZero.
Proof.
  unfold load. destruct (i <? 0); [discriminate|].
  destruct (a !! Z.to_nat i); discriminate.
Qed.

Lemma emit_x_then_y_Ok (s : pass_state) (a b : Z) (s' : pass_state) :
  emit_x_then_y s a b = Ok s' <-> emits s (mkVertex a b) s'.
Proof.
  unfold emit_x_then_y, emits, store_x, store_y.
  destruct (pIndex s <? 0) eqn:E; simpl.
  { split; [discriminate | lia]. }
  destruct (dest s !! Z.to_nat (pIndex s)) as [old|] eqn:L; simpl.
  - pose proof (lookup_lt_Some _ _ _ L) as Hlt.
    rewrite list_lookup_insert_eq by exact Hlt. simpl.
    rewrite list_insert_insert_eq.
    split.
    + intros H. injection H as <-. split; [lia | reflexivity].
    + intros [_ ->]. reflexivity.
  - apply lookup_ge_None in L. split; [discriminate | lia].
Qed.

Lemma emit_y_then_x_Ok (s : pass_state) (a b : Z) (s' : pass_state) :
  emit_y_then_x s a b = Ok s' <-> emits s (mkVertex a b) s'.
Proof.
  unfold emit_y_then_x, emits, store_x, store_y.
  destruct (pIndex s <? 0) eqn:E; simpl.
  { split; [discriminate | lia]. }
  destruct (dest s !! Z.to_nat (pIndex s)) as [old|] eqn:L; simpl.
  - pose proof (lookup_lt_Some _ _ _ L) as Hlt.
    rewrite list_lookup_insert_eq by exact Hlt. simpl.
    rewrite list_insert_insert_eq.
    split.
    + intros H. injection H as <-. split; [lia | reflexivity].
    + intros [_ ->]. reflexivity.
  - apply lookup_ge_None in L. split; [discriminate | lia].
Qed.

Lemma emit_x_then_y_not_div (s : pass_state) (a b : Z) :
  emit_x_then_y s a b <> Fault DivideByZero.
Proof.
  unfold emit_x_then_y, store_x, store_y.
  destruct (pIndex s <? 0) eqn:E; simpl; [discriminate|].
  destruct (dest s !! Z.to_nat (pIndex s)); simpl; [|discriminate].
  destruct (_ !! _); discriminate.
Qed.

Lemma emit_y_then_x_not_div (s : pass_state) (a b : Z) :
  emit_y_then_x s a b <> Fault DivideByZero.
Proof.
  unfold emit_y_then_x, store_x, store_y.
  destruct (pIndex s <? 0) eqn:E; simpl; [discriminate|].
  destruct (dest s !! Z.to_nat (pIndex s)); simpl; [|discriminate].
  destruct (_ !! _); discriminate.
Qed.

(** ** Divisions *)

Lemma lerp_not_div (t1 u1 t2 u2 c : Z) :
  t1 <> t2 -> lerp t1 u1 t2 u2 c <> Fault DivideByZero.
Proof.
  intros Hne. unfold lerp, int_sub, int_mul, int_add, int_div.
  repeat (apply bind_not_fault; [try apply checked_not_div | intros ? ?]).
  - match goal with H : checked (t2 - t1) = Ok _ |- _ =>
      apply checked_Ok in H; destruct H as [-> _] end.
    destruct (t2 - t1 =? 0) eqn:E; [lia | apply checked_not_div].
  - apply checked_not_div.
Qed.

(** The start point after its clipping, in terms of the state before. *)
Ltac start_clipped H :=
  match type of H with
  | (if ?c then _ else _) = Ok _ =>
      let E := fresh "E" in
      destruct c eqn:E;
      [ apply bind_Ok in H; destruct H as (? & _ & H); injection H as <-
      | injection H as <- ]
  end.

Ltac after_emit H :=
  first [ apply emit_x_then_y_Ok in H | apply emit_y_then_x_Ok in H ];
  destruct H as [? ->]; simpl in *.

Lemma x_edge_not_div (clip_left clip_right : Z) (sourcePolygon : list vertex)
    (nVertices : Z) (s : pass_state) :
  clip_left <= clip_right ->
  x_edge clip_left clip_right sourcePolygon nVertices s
    <> Fault DivideByZero.
Proof.
  intros Hlr. unfold x_edge.
  apply bind_not_fault; [apply load_not_div | intros v2 _]. simpl.
  apply bind_not_fault; [| discriminate].
  destruct (Z.gtb_spec (rx1 s) (x v2)) as [Hgt|Hle].
  - destruct ((rx1 s <? clip_left) || (x v2 >? clip_right)) eqn:Hout;
      [discriminate|].
    apply orb_false_iff in Hout. destruct Hout as [H1 H2].
    apply bind_not_fault.
    { destruct (rx1 s >? clip_right); [| discriminate].
      apply bind_not_fault; [apply lerp_not_div; lia | discriminate]. }
    intros s1 Hs1.
    apply bind_not_fault; [apply emit_x_then_y_not_div | intros s2 Hs2].
    destruct (Z.ltb_spec (x v2) clip_left); [| discriminate].
    apply bind_not_fault; [| intros; apply emit_y_then_x_not_div].
    apply lerp_not_div. start_clipped Hs1; after_emit Hs2; lia.
  - destruct ((x v2 <? clip_left) || (rx1 s >? clip_right)) eqn:Hout;
      [discriminate|].
    apply orb_false_iff in Hout. destruct Hout as [H1 H2].
    apply bind_not_fault.
    { destruct (Z.ltb_spec (rx1 s) clip_left); [| discriminate].
      apply bind_not_fault; [apply lerp_not_div; lia | discriminate]. }
    intros s1 Hs1.
    apply bind_not_fault; [apply emit_x_then_y_not_div | intros s2 Hs2].
    destruct (Z.gtb_spec (x v2) clip_right); [| discriminate].
    apply bind_not_fault; [| intros; apply emit_y_then_x_not_div].
    apply lerp_not_div. start_clipped Hs1; after_emit Hs2; lia.
Qed.

Lemma y_edge_not_div (clip_top clip_bottom : Z) (clipBuffer : list vertex)
    (nVertices : Z) (s : pass_state) :
  clip_top <= clip_bottom ->
  y_edge clip_top clip_bottom clipBuffer nVertices s
    <> Fault DivideByZero.
Proof.
  intros Htb. unfold y_edge.
  apply bind_not_fault; [apply load_not_div | intros v2 _]. simpl.
  apply bind_not_fault; [| discriminate].
  destruct (Z.gtb_spec (ry1 s) (y v2)) as [Hgt|Hle].
  - destruct ((ry1 s <? clip_top) || (y v2 >? clip_bottom)) eqn:Hout;
      [discriminate|].
    apply orb_false_iff in Hout. destruct Hout as [H1 H2].
    apply bind_not_fault.
    { destruct (ry1 s >? clip_bottom); [| discriminate].
      apply bind_not_fault; [apply lerp_not_div; lia | discriminate]. }
    intros s1 Hs1.
    apply bind_not_fault; [apply emit_x_then_y_not_div | intros s2 Hs2].
    destruct (Z.ltb_spec (y v2) clip_top); [| discriminate].
    apply bind_not_fault; [| intros; apply emit_x_then_y_not_div].
    apply lerp_not_div. start_clipped Hs1; after_emit Hs2; lia.
  - destruct ((y v2 <? clip_top) || (ry1 s >? clip_bottom)) eqn:Hout;
      [discriminate|].
    apply orb_false_iff in Hout. destruct Hout as [H1 H2].
    apply bind_not_fault.
    { destruct (Z.ltb_spec (ry1 s) clip_top); [| discriminate].
      apply bind_not_fault; [apply lerp_not_div; lia | discriminate]. }
    intros s1 Hs1.
    apply bind_not_fault; [apply emit_x_then_y_not_div | intros s2 Hs2].
    destruct (Z.gtb_spec (y v2) clip_bottom); [| discriminate].
    apply bind_not_fault; [| intros; apply emit_x_then_y_not_div].
    apply lerp_not_div. start_clipped Hs1; after_emit Hs2; lia.
Qed.

Lemma while_dec_not_fault (body : Z -> pass_state -> result pass_state)
    (f : fault) :
  (forall i s, body i s <> Fault f) ->
  forall k s, while_dec body k s <> Fault f.
Proof.
  intros Hbody. induction k as [|k IH]; intros s; simpl.
  - discriminate.
  - apply bind_not_fault; [apply Hbody | intros s' _; apply IH].
Qed.

(** ** Interpolation stays between the two ends *)

Lemma quot_scale_nonneg (a n d : Z) :
  0 <= a -> 0 < n <= d -> 0 <= Z.quot (a * n) d <= a.
Proof.
  intros Ha Hn.
  rewrite Z.quot_div_nonneg by nia.
  split.
  - apply Z.div_pos; nia.
  - apply Z.div_le_upper_bound; nia.
Qed.

Lemma quot_scale (a n d : Z) :
  0 < n <= d ->
  (0 <= a -> 0 <= Z.quot (a * n) d <= a) /\
  (a <= 0 -> a <= Z.quot (a * n) d <= 0).
Proof.
  intros Hn. split; intros Ha.
  - apply quot_scale_nonneg; assumption.
  - replace (a * n) with (- ((- a) * n)) by lia.
    rewrite Z.quot_opp_l by lia.
    pose proof (quot_scale_nonneg (- a) n d ltac:(lia) Hn). lia.
Qed.

Lemma lerp_quot_between (u1 u2 t1 t2 c : Z) :
  crosses t1 t2 c ->
  let v := u1 + Z.quot ((u2 - u1) * (c - t1)) (t2 - t1) in
  (u1 <= v <= u2) \/ (u2 <= v <= u1).
Proof.
  intros [H|H]; simpl.
  - destruct (quot_scale (u2 - u1) (c - t1) (t2 - t1) ltac:(lia)) as [P N].
    destruct (Z.le_gt_cases 0 (u2 - u1)) as [Hs|Hs].
    + specialize (P Hs). lia.
    + specialize (N ltac:(lia)). lia.
  - replace ((u2 - u1) * (c - t1)) with (- ((u2 - u1) * (t1 - c))) by lia.
    replace (t2 - t1) with (- (t1 - t2)) by lia.
    rewrite Z.quot_opp_opp by lia.
    destruct (quot_scale (u2 - u1) (t1 - c) (t1 - t2) ltac:(lia)) as [P N].
    destruct (Z.le_gt_cases 0 (u2 - u1)) as [Hs|Hs].
    + specialize (P Hs). lia.
    + specialize (N ltac:(lia)). lia.
Qed.

Lemma lerp_Ok (t1 u1 t2 u2 c v : Z) :
  lerp t1 u1 t2 u2 c = Ok v ->
  t2 - t1 <> 0 /\ v = u1 + Z.quot ((u2 - u1) * (c - t1)) (t2 - t1).
Proof.
  unfold lerp, int_sub, int_mul, int_div, int_add. intros H.
  apply bind_Ok in H. destruct H as (du & Hdu & H).
  apply bind_Ok in H. destruct H as (dc & Hdc & H).
  apply bind_Ok in H. destruct H as (p & Hp & H).
  apply bind_Ok in H. destruct H as (dt & Hdt & H).
  apply bind_Ok in H. destruct H as (q & Hq & H).
  apply checked_Ok in Hdu, Hdc, Hp, Hdt, H.
  destruct (Z.eqb_spec dt 0) as [|Hne]; [discriminate|].
  apply checked_Ok in Hq.
  destruct Hdu as [-> _], Hdc as [-> _], Hp as [-> _], Hdt as [-> _],
    Hq as [-> _], H as [-> _].
  split; [exact Hne | reflexivity].
Qed.

Lemma lerp_between (t1 u1 t2 u2 c v lo hi : Z) :
  lerp t1 u1 t2 u2 c = Ok v -> crosses t1 t2 c ->
  lo <= u1 <= hi -> lo <= u2 <= hi -> lo <= v <= hi.
Proof.
  intros [_ ->]%lerp_Ok Hc H1 H2.
  pose proof (lerp_quot_between u1 u2 t1 t2 c Hc) as Hb. simpl in Hb. lia.
Qed.

Lemma lerp_between_int16 (t1 u1 t2 u2 c v lo hi : Z) :
  lerp t1 u1 t2 u2 c = Ok v -> crosses t1 t2 c ->
  int16_range lo -> int16_range hi ->
  lo <= u1 <= hi -> lo <= u2 <= hi -> lo <= to_int16 v <= hi.
Proof.
  intros Hl Hc Hlo Hhi H1 H2.
  pose proof (lerp_between _ _ _ _ _ _ _ _ Hl Hc H1 H2) as Hv.
  rewrite to_int16_id; [exact Hv|]. unfold int16_range in *. lia.
Qed.

(** ** What a pass has written *)

Lemma emitted_all_set_start (P : vertex -> Prop) (s : pass_state) (a b : Z) :
  emitted_all P (set_start s a b) <-> emitted_all P s.
Proof. reflexivity. Qed.

Lemma emitted_all_emits (P : vertex -> Prop) (s s' : pass_state) (v : vertex) :
  emits s v s' -> P v -> emitted_all P s -> emitted_all P s'.
Proof.
  intros [Hp ->] Hv (_ & Hlen & Hall). unfold emitted_all. simpl.
  rewrite length_insert.
  pose proof (to_int16_le (pIndex s + 1) ltac:(lia)) as Hle.
  split; [apply to_int16_range|].
  split; [lia|].
  assert (Hfull : Forall P (take (S (Z.to_nat (pIndex s)))
                              (<[Z.to_nat (pIndex s) := v]> (dest s)))).
  { rewrite (take_S_r _ _ v) by (apply list_lookup_insert_eq; lia).
    rewrite take_insert_ge by lia.
    apply Forall_app. split; [exact Hall | repeat constructor; exact Hv]. }
  replace (take (Z.to_nat (to_int16 (pIndex s + 1))) _)
    with (take (Z.to_nat (to_int16 (pIndex s + 1)))
            (take (S (Z.to_nat (pIndex s)))
               (<[Z.to_nat (pIndex s) := v]> (dest s)))).
  - apply Forall_take. exact Hfull.
  - rewrite take_take. f_equal. lia.
Qed.

Lemma emits_start (s s' : pass_state) (v : vertex) :
  emits s v s' -> rx1 s' = rx1 s /\ ry1 s' = ry1 s.
Proof. intros [_ ->]. split; reflexivity. Qed.

(** Inversion of a successful run of an edge: one goal per path through
    the body, with the comparisons, the interpolations and the writes of
    that path as hypotheses. *)
Ltac inv_run :=
  repeat match goal with
  | H : (_ ≫= _) = Ok _ |- _ =>
      apply bind_Ok in H; destruct H as (? & ? & ?)
  | H : (if ?a || ?b then _ else _) = Ok _ |- _ =>
      let E := fresh "E" in
      destruct (a || b) eqn:E;
      [ | apply orb_false_iff in E; destruct E as [? ?] ]
  | H : (if ?c then _ else _) = Ok _ |- _ => destruct c eqn:?
  | H : emit_x_then_y _ _ _ = Ok _ |- _ => apply emit_x_then_y_Ok in H
  | H : emit_y_then_x _ _ _ = Ok _ |- _ => apply emit_y_then_x_Ok in H
  | H : Ok _ = Ok _ |- _ => injection H as H
  | H : (_ <? _) = true |- _ => apply Z.ltb_lt in H
  | H : (_ <? _) = false |- _ => apply Z.ltb_ge in H
  | H : (_ >? _) = true |- _ => rewrite Z.gtb_ltb in H; apply Z.ltb_lt in H
  | H : (_ >? _) = false |- _ => rewrite Z.gtb_ltb in H; apply Z.ltb_ge in H
  end.

(** The start point of every intermediate state in terms of the state the
    edge began with. *)
Ltac run_starts :=
  repeat match goal with
  | H : set_start _ _ _ = ?t |- _ => subst t
  | H : ?t = ?t' :> pass_state |- _ => subst t'
  end;
  simpl in *;
  repeat match goal with
  | H : emits ?s _ ?s' |- _ =>
      lazymatch goal with
      | _ : rx1 s' = _ |- _ => fail
      | _ => destruct (emits_start _ _ _ H) as [? ?]
      end
  end;
  simpl in *;
  repeat match goal with
  | H : rx1 ?s' = _, H' : ry1 ?s' = _ |- _ =>
      is_var s'; rewrite ?H, ?H' in *; clear H H'
  end.

Ltac emitted_chain :=
  lazymatch goal with
  | |- emitted_all _ (set_start _ _ _) =>
      apply emitted_all_set_start; emitted_chain
  | H : emits ?s ?v ?s' |- emitted_all _ ?s' =>
      apply (emitted_all_emits _ s s' v H); [ | emitted_chain ]
  | |- _ => try assumption
  end.

(** Every interpolated value of the run lies in [[lo, hi]] when both ends
    of the edge do. *)
Ltac lerp_bounds lo hi :=
  repeat match goal with
  | H : lerp _ _ _ _ _ = Ok ?v |- _ =>
      lazymatch goal with
      | _ : lo <= to_int16 v <= hi |- _ => fail
      | _ =>
          assert (lo <= to_int16 v <= hi)
            by (apply (lerp_between_int16 _ _ _ _ _ _ _ _ H);
                [unfold crosses; lia | assumption | assumption | lia | lia])
      end
  end.

Lemma x_edge_emitted_all (P : vertex -> Prop) (clip_left clip_right : Z)
    (sourcePolygon : list vertex) (nVertices : Z) (s s' : pass_state)
    (v2 : vertex) :
  clip_left <= clip_right ->
  load sourcePolygon nVertices = Ok v2 ->
  x_edge clip_left clip_right sourcePolygon nVertices s = Ok s' ->
  (forall e, x_clipped clip_left clip_right (mkVertex (rx1 s) (ry1 s)) v2 e ->
             P e) ->
  emitted_all P s -> emitted_all P s'.
Proof.
  intros Hlr Hload Hrun HP Hall. unfold x_edge in Hrun.
  rewrite Hload in Hrun. simpl in Hrun.
  inv_run; run_starts; emitted_chain.
  all: apply HP; split; [unfold in_x; simpl; lia |].
  all: intros lo hi Hlo Hhi Ha Hb; unfold in_y in *; simpl in *.
  all: lerp_bounds lo hi; lia.
Qed.

Lemma y_edge_emitted_all (P : vertex -> Prop) (clip_top clip_bottom : Z)
    (clipBuffer : list vertex) (nVertices : Z) (s s' : pass_state)
    (v2 : vertex) :
  clip_top <= clip_bottom ->
  load clipBuffer nVertices = Ok v2 ->
  y_edge clip_top clip_bottom clipBuffer nVertices s = Ok s' ->
  (forall e, y_clipped clip_top clip_bottom (mkVertex (rx1 s) (ry1 s)) v2 e ->
             P e) ->
  emitted_all P s -> emitted_all P s'.
Proof.
  intros Htb Hload Hrun HP Hall. unfold y_edge in Hrun.
  rewrite Hload in Hrun. simpl in Hrun.
  inv_run; run_starts; emitted_chain.
  all: apply HP; split; [unfold in_y; simpl; lia |].
  all: intros lo hi Hlo Hhi Ha Hb; unfold in_x in *; simpl in *.
  all: lerp_bounds lo hi; lia.
Qed.

(** Both edges advance to the vertex they read. *)
Lemma x_edge_start (clip_left clip_right : Z) (sourcePolygon : list vertex)
    (nVertices : Z) (s s' : pass_state) :
  x_edge clip_left clip_right sourcePolygon nVertices s = Ok s' ->
  exists v2, load sourcePolygon nVertices = Ok v2 /\
             rx1 s' = x v2 /\ ry1 s' = y v2.
Proof.
  unfold x_edge. intros Hrun.
  apply bind_Ok in Hrun. destruct Hrun as (v2 & Hload & Hrun).
  apply bind_Ok in Hrun. destruct Hrun as (sb & _ & Hrun).
  injection Hrun as <-. exists v2. repeat split. exact Hload.
Qed.

Lemma y_edge_start (clip_top clip_bottom : Z) (clipBuffer : list vertex)
    (nVertices : Z) (s s' : pass_state) :
  y_edge clip_top clip_bottom clipBuffer nVertices s = Ok s' ->
  exists v2, load clipBuffer nVertices = Ok v2 /\
             rx1 s' = x v2 /\ ry1 s' = y v2.
Proof.
  unfold y_edge. intros Hrun.
  apply bind_Ok in Hrun. destruct Hrun as (v2 & Hload & Hrun).
  apply bind_Ok in Hrun. destruct Hrun as (sb & _ & Hrun).
  injection Hrun as <-. exists v2. repeat split. exact Hload.
Qed.

(** ** Loop invariants *)

Lemma while_dec_invariant (Inv : pass_state -> Prop)
    (body : Z -> pass_state -> result pass_state) (k : nat) :
  (forall k' s s', (k' < k)%nat -> Inv s ->
     body (to_int16 (Z.of_nat k')) s = Ok s' -> Inv s') ->
  forall s s', Inv s -> while_dec body k s = Ok s' -> Inv s'.
Proof.
  induction k as [|k IH]; intros Hstep s s' Hs Hrun; simpl in Hrun.
  - injection Hrun as <-. exact Hs.
  - apply bind_Ok in Hrun. destruct Hrun as (s1 & H1 & Hrun).
    apply (IH (fun k' a b Hk => Hstep k' a b (Nat.lt_lt_succ_r _ _ Hk)) s1);
      [| exact Hrun].
    apply (Hstep k s s1); [lia | exact Hs | exact H1].
Qed.

(** ** Polygons that a pass copies

    When both ends of every edge satisfy [P], a predicate under which the
    body of the loop writes the start of the edge and nothing else, the pass
    writes the start point it was given and then the source vertices from
    the last one down to the second one. *)

Lemma vertex_eta (v : vertex) : mkVertex (x v) (y v) = v.
Proof. destruct v. reflexivity. Qed.

Lemma drop1_take_S {A : Type} (l : list A) (k : nat) (a : A) :
  l !! S k = Some a ->
  reverse (drop 1 (take (S (S k)) l)) = a :: reverse (drop 1 (take (S k) l)).
Proof.
  intros Hl. rewrite (take_S_r l (S k) a Hl).
  rewrite drop_app_le.
  - apply reverse_snoc.
  - apply lookup_lt_Some in Hl. rewrite length_take. lia.
Qed.

Section Copy.

Variable body : Z -> pass_state -> result pass_state.
Variable src : list vertex.
Variable P : vertex -> Prop.
Variable v0 : vertex.

Hypothesis src_0 : src !! 0%nat = Some v0.

Hypothesis body_copy : forall i s v2,
  load src i = Ok v2 -> P (mkVertex (rx1 s) (ry1 s)) -> P v2 ->
  body i s =
    (s2 ← emit_x_then_y s (rx1 s) (ry1 s);
     Ok (set_start s2 (x v2) (y v2))).

Lemma body_copy_step (k p : nat) (a v2 : vertex) (d0 : list vertex) :
  Z.of_nat k <= 32767 -> (p < length d0)%nat -> Z.of_nat p < 32767 ->
  src !! k = Some v2 -> P a -> P v2 ->
  body (to_int16 (Z.of_nat k)) (mkState (x a) (y a) (Z.of_nat p) d0) =
    Ok (mkState (x v2) (y v2) (Z.of_nat (S p)) (<[p := a]> d0)).
Proof.
  intros Hk Hp Hp' Hv2 Ha H2.
  rewrite to_int16_id by (unfold int16_range; lia).
  rewrite (body_copy _ _ v2); simpl.
  - assert (He : emit_x_then_y (mkState (x a) (y a) (Z.of_nat p) d0)
                   (x a) (y a) =
                 Ok (mkState (x a) (y a) (to_int16 (Z.of_nat p + 1))
                       (<[p := a]> d0))).
    { apply emit_x_then_y_Ok. split; simpl; [lia|].
      rewrite Nat2Z.id, vertex_eta. reflexivity. }
    rewrite He. simpl. unfold set_start. simpl.
    rewrite to_int16_id by (unfold int16_range; lia).
    do 2 f_equal. lia.
  - apply load_Ok. split; [lia|]. rewrite Nat2Z.id. exact Hv2.
  - rewrite vertex_eta. exact Ha.
  - exact H2.
Qed.

Lemma while_dec_copy (k : nat) :
  forall (a : vertex) (p : nat) (d0 : list vertex),
  (S k <= length src)%nat -> (p + S k <= length d0)%nat ->
  Z.of_nat (p + S k) <= 32767 ->
  P a -> Forall P (take (S k) src) ->
  exists d,
    while_dec body (S k) (mkState (x a) (y a) (Z.of_nat p) d0) =
      Ok (mkState (x v0) (y v0) (Z.of_nat (p + S k)) d) /\
    length d = length d0 /\
    take (p + S k) d = take p d0 ++ a :: reverse (drop 1 (take (S k) src)).
Proof.
  induction k as [|k IH]; intros a p d0 Hsrc Hd Hmax Ha Hall.
  - exists (<[p := a]> d0).
    assert (Hv0 : P v0).
    { rewrite Forall_lookup in Hall. apply (Hall 0%nat).
      rewrite lookup_take_lt by lia. exact src_0. }
    cbn [while_dec].
    rewrite (body_copy_step 0 p a v0) by (assumption || lia).
    simpl. split; [do 2 f_equal; lia|].
    split; [apply length_insert|].
    replace (p + 1)%nat with (S p) by lia.
    rewrite (take_S_r _ _ a) by (apply list_lookup_insert_eq; lia).
    rewrite take_insert_ge by lia.
    destruct src; [discriminate|]. reflexivity.
  - destruct (lookup_lt_is_Some_2 src (S k) ltac:(lia)) as [v2 Hv2].
    assert (H2 : P v2).
    { rewrite Forall_lookup in Hall. apply (Hall (S k)).
      rewrite lookup_take_lt by lia. exact Hv2. }
    assert (Hall' : Forall P (take (S k) src)).
    { replace (take (S k) src) with (take (S k) (take (S (S k)) src))
        by (rewrite take_take; f_equal; lia).
      apply Forall_take. exact Hall. }
    destruct (IH v2 (S p) (<[p := a]> d0)) as (d & Hrun & Hlen & Htake);
      try assumption; try lia.
    { rewrite length_insert. lia. }
    exists d.
    change (while_dec body (S (S k)) ?s)
      with (body (to_int16 (Z.of_nat (S k))) s ≫= while_dec body (S k)).
    rewrite (body_copy_step (S k) p a v2) by (assumption || lia).
    rewrite bind_Ok_l, Hrun. split; [do 2 f_equal; lia|].
    split; [rewrite Hlen; apply length_insert|].
    replace (p + S (S k))%nat with (S p + S k)%nat by lia.
    rewrite Htake.
    rewrite (take_S_r _ _ a) by (apply list_lookup_insert_eq; lia).
    rewrite take_insert_ge by lia.
    rewrite (drop1_take_S src k v2 Hv2).
    rewrite <- app_assoc. reflexivity.
Qed.

End Copy.

Lemma x_edge_copy (clip_left clip_right : Z) (sourcePolygon : list vertex)
    (i : Z) (s : pass_state) (v2 : vertex) :
  load sourcePolygon i = Ok v2 ->
  in_x clip_left clip_right (mkVertex (rx1 s) (ry1 s)) ->
  in_x clip_left clip_right v2 ->
  x_edge clip_left clip_right sourcePolygon i s =
    (s2 ← emit_x_then_y s (rx1 s) (ry1 s);
     Ok (set_start s2 (x v2) (y v2))).
Proof.
  unfold in_x, x_edge. simpl. intros -> H1 H2. simpl.
  rewrite !Z.gtb_ltb.
  repeat match goal with
  | |- context [ ?a <? ?b ] => destruct (Z.ltb_spec a b); try lia; simpl
  end.
  all: destruct (emit_x_then_y s (rx1 s) (ry1 s)); reflexivity.
Qed.

Lemma y_edge_copy (clip_top clip_bottom : Z) (clipBuffer : list vertex)
    (i : Z) (s : pass_state) (v2 : vertex) :
  load clipBuffer i = Ok v2 ->
  in_y clip_top clip_bottom (mkVertex (rx1 s) (ry1 s)) ->
  in_y clip_top clip_bottom v2 ->
  y_edge clip_top clip_bottom clipBuffer i s =
    (s2 ← emit_x_then_y s (rx1 s) (ry1 s);
     Ok (set_start s2 (x v2) (y v2))).
Proof.
  unfold in_y, y_edge. simpl. intros -> H1 H2. simpl.
  rewrite !Z.gtb_ltb.
  repeat match goal with
  | |- context [ ?a <? ?b ] => destruct (Z.ltb_spec a b); try lia; simpl
  end.
  all: destruct (emit_x_then_y s (rx1 s) (ry1 s)); reflexivity.
Qed.

Lemma iterations_nat (n : nat) :
  Z.of_nat n <= 32767 -> iterations (Z.of_nat n) = n.
Proof.
  intros H. unfold iterations. rewrite Z.mod_small by lia. apply Nat2Z.id.
Qed.

(** A polygon of at least three vertices inside the region goes through
    both passes unchanged: each pass reverses the order of all vertices but
    the first. *)
Lemma clip_copy (sourcePolygon : list vertex) (n : nat) (r : clipRect)
    (clipBuffer clippedPolygon : list vertex) :
  (3 <= n)%nat -> Z.of_nat n <= 32767 ->
  (n <= length sourcePolygon)%nat ->
  (n <= length clipBuffer)%nat -> (n <= length clippedPolygon)%nat ->
  Forall (inside r) (take n sourcePolygon) ->
  exists cb' cp',
    TwoAxisPolygonClip sourcePolygon (Z.of_nat n) r clipBuffer clippedPolygon
      = Ok (Z.of_nat n, cb', cp') /\
    take n cp' = take n sourcePolygon /\
    length cb' = length clipBuffer /\
    length cp' = length clippedPolygon.
Proof.
  intros H3 Hmax Hsrc Hcb Hcp Hin.
  destruct n as [|k]; [lia|].
  destruct sourcePolygon as [|v0 rest] eqn:Esrc; [simpl in Hsrc; lia|].
  rewrite <- Esrc in *.
  assert (H0 : sourcePolygon !! 0%nat = Some v0) by (subst; reflexivity).
  assert (Hinx : Forall (in_x (clipLeft r) (clipRight r))
                   (take (S k) sourcePolygon)).
  { eapply Forall_impl; [exact Hin | intros ? [? _]; assumption]. }
  assert (Hiny : Forall (in_y (clipTop r) (clipBottom r))
                   (take (S k) sourcePolygon)).
  { eapply Forall_impl; [exact Hin | intros ? [_ ?]; assumption]. }
  assert (Hv0x : in_x (clipLeft r) (clipRight r) v0).
  { rewrite Forall_lookup in Hinx. apply (Hinx 0%nat).
    rewrite lookup_take_lt by lia. exact H0. }
  assert (Hv0y : in_y (clipTop r) (clipBottom r) v0).
  { rewrite Forall_lookup in Hiny. apply (Hiny 0%nat).
    rewrite lookup_take_lt by lia. exact H0. }
  (* the X pass *)
  destruct (while_dec_copy
              (x_edge (clipLeft r) (clipRight r) sourcePolygon)
              sourcePolygon (in_x (clipLeft r) (clipRight r)) v0 H0
              (x_edge_copy _ _ _) k v0 0%nat clipBuffer)
    as (d & Hx & Hlen & Htake); try assumption; try lia.
  (* the Y pass reads what the X pass wrote *)
  assert (Hd : take (S k) d = v0 :: reverse (drop 1 (take (S k) sourcePolygon)))
    by exact Htake.
  assert (Hd0 : d !! 0%nat = Some v0).
  { rewrite <- (lookup_take_lt d (S k)) by lia. rewrite Hd. reflexivity. }
  assert (Hdy : Forall (in_y (clipTop r) (clipBottom r)) (take (S k) d)).
  { rewrite Hd. constructor; [exact Hv0y|].
    apply Forall_reverse, Forall_drop. exact Hiny. }
  destruct (while_dec_copy
              (y_edge (clipTop r) (clipBottom r) d)
              d (in_y (clipTop r) (clipBottom r)) v0 Hd0
              (y_edge_copy _ _ _) k v0 0%nat clippedPolygon)
    as (d2 & Hy & Hlen2 & Htake2); try assumption; try lia.
  exists d, d2.
  unfold TwoAxisPolygonClip, x_pass, y_pass. cbv zeta.
  assert (Hl0 : load sourcePolygon 0 = Ok v0)
    by (apply load_Ok; split; [lia | exact H0]).
  rewrite Hl0, bind_Ok_l, iterations_nat by exact Hmax.
  change (Z.of_nat 0) with 0 in Hx. rewrite Hx, bind_Ok_l.
  cbn [pIndex dest].
  destruct (Z.ltb_spec (Z.of_nat (0 + S k)) 3) as [|_]; [lia|].
  assert (Hl1 : load d 0 = Ok v0)
    by (apply load_Ok; split; [lia | exact Hd0]).
  rewrite Hl1, bind_Ok_l.
  replace (Z.of_nat (0 + S k)) with (Z.of_nat (S k)) by (f_equal; lia).
  rewrite iterations_nat by exact Hmax.
  change (Z.of_nat 0) with 0 in Hy. rewrite Hy, bind_Ok_l. cbn [pIndex dest].
  split; [reflexivity|].
  split; [|split; assumption].
  change (0 + S k)%nat with (S k) in Htake2. rewrite Htake2.
  rewrite Hd.
  change (take 0 clippedPolygon ++ ?l) with l.
  change (drop 1 (v0 :: ?l)) with l.
  rewrite reverse_involutive, Esrc. reflexivity.
Qed.

(** ** What a successful call has written *)

Lemma emitted_all_init (P : vertex -> Prop) (a b : Z) (d : list vertex) :
  emitted_all P (mkState a b 0 d).
Proof.
  unfold emitted_all, int16_range. simpl.
  split; [lia|]. split; [lia | constructor].
Qed.

Lemma emitted_all_lookup (P : vertex -> Prop) (s : pass_state) (i : Z)
    (v : vertex) :
  emitted_all P s -> load (dest s) i = Ok v -> i < pIndex s -> P v.
Proof.
  intros (_ & _ & Hall) [Hi Hv]%load_Ok Hlt.
  rewrite Forall_lookup in Hall. apply (Hall (Z.to_nat i)).
  rewrite lookup_take_lt by lia. exact Hv.
Qed.

Lemma x_pass_emitted_all (clip_left clip_right : Z)
    (sourcePolygon : list vertex) (k : nat) (s s' : pass_state) :
  clip_left <= clip_right ->
  x_pass clip_left clip_right sourcePolygon k s = Ok s' ->
  emitted_all (in_x clip_left clip_right) s ->
  emitted_all (in_x clip_left clip_right) s'.
Proof.
  intros Hlr Hrun Hs. unfold x_pass in Hrun.
  refine (while_dec_invariant _ _ k _ s s' Hs Hrun).
  intros k' a b _ Ha Hstep.
  destruct (x_edge_start _ _ _ _ _ _ Hstep) as (v2 & Hload & _).
  apply (x_edge_emitted_all _ _ _ _ _ _ _ _ Hlr Hload Hstep); [| exact Ha].
  intros e [He _]. exact He.
Qed.

Lemma y_pass_emitted_all (r : clipRect) (clipBuffer : list vertex)
    (n : Z) (w0 : vertex) (clippedPolygon : list vertex) (s' : pass_state) :
  valid_region r -> int16_region r ->
  0 <= n <= 32767 ->
  Forall (in_x (clipLeft r) (clipRight r)) (take (Z.to_nat n) clipBuffer) ->
  in_x (clipLeft r) (clipRight r) w0 ->
  y_pass (clipTop r) (clipBottom r) clipBuffer (Z.to_nat n)
    (mkState (x w0) (y w0) 0 clippedPolygon) = Ok s' ->
  emitted_all (inside r) s'.
Proof.
  intros [Hlr Htb] (Hl & Hr & _) Hn Hbuf Hw0 Hrun. unfold y_pass in Hrun.
  pose (Inv := fun s : pass_state =>
          in_x (clipLeft r) (clipRight r) (mkVertex (rx1 s) (ry1 s)) /\
          emitted_all (inside r) s).
  assert (HInv : Inv s'); [| exact (proj2 HInv)].
  assert (Hinit : Inv (mkState (x w0) (y w0) 0 clippedPolygon))
    by (split; [exact Hw0 | apply emitted_all_init]).
  refine (while_dec_invariant Inv _ (Z.to_nat n) _ _ s' Hinit Hrun).
  intros k' a b Hk [Hstart Ha] Hstep.
  destruct (y_edge_start _ _ _ _ _ _ Hstep) as (v2 & Hload & Hx & Hy).
  assert (Hv2 : in_x (clipLeft r) (clipRight r) v2).
  { rewrite to_int16_id in Hload by (unfold int16_range; lia).
    apply load_Ok in Hload. destruct Hload as [_ Hload].
    rewrite Nat2Z.id in Hload.
    rewrite Forall_lookup in Hbuf. apply (Hbuf k').
    rewrite lookup_take_lt by lia. exact Hload. }
  split.
  - unfold in_x in *. simpl in *. rewrite Hx. exact Hv2.
  - apply (y_edge_emitted_all _ _ _ _ _ _ _ _ Htb Hload Hstep); [| exact Ha].
    intros e [He Hrange]. split; [| exact He].
    apply Hrange; assumption.
Qed.

(** The vertices of a visible result lie in the clip region. *)
Lemma clip_output_inside (sourcePolygon : list vertex) (nVertices : Z)
    (r : clipRect) (clipBuffer clippedPolygon : list vertex)
    (m : Z) (cb' cp' : list vertex) :
  valid_region r -> int16_region r ->
  TwoAxisPolygonClip sourcePolygon nVertices r clipBuffer clippedPolygon
    = Ok (m, cb', cp') ->
  3 <= m ->
  m <= 32767 /\ m <= Z.of_nat (length cp') /\
  Forall (inside r) (take (Z.to_nat m) cp').
Proof.
  intros Hvalid Hwf Hrun Hm. unfold TwoAxisPolygonClip in Hrun.
  cbv zeta in Hrun.
  apply bind_Ok in Hrun. destruct Hrun as (v0 & Hv0 & Hrun).
  apply bind_Ok in Hrun. destruct Hrun as (s & Hx & Hrun).
  apply x_pass_emitted_all in Hx;
    [| exact (proj1 Hvalid) | apply emitted_all_init].
  destruct (Z.ltb_spec (pIndex s) 3) as [Hlt|Hge].
  { injection Hrun as <- _ _. lia. }
  apply bind_Ok in Hrun. destruct Hrun as (w0 & Hw0 & Hrun).
  apply bind_Ok in Hrun. destruct Hrun as (s' & Hy & Hrun).
  injection Hrun as <- _ <-.
  pose proof Hx as (Hrange & Hlen & Hall).
  unfold int16_range in Hrange.
  unfold iterations in Hy. rewrite Z.mod_small in Hy by lia.
  apply y_pass_emitted_all in Hy; try assumption; try lia.
  - destruct Hy as (Hr' & Hlen' & Hall'). unfold int16_range in Hr'.
    repeat split; try lia. exact Hall'.
  - apply (emitted_all_lookup _ _ _ _ Hx Hw0). lia.
Qed.

(** ** Runs without a fault *)

Lemma no_fault_Ok {A : Type} (a : A) : no_fault (Ok a).
Proof. exists a. reflexivity. Qed.

Lemma no_fault_bind {A B : Type} (m : result A) (k : A -> result B) :
  no_fault m -> (forall a, m = Ok a -> no_fault (k a)) ->
  no_fault (m ≫= k).
Proof. intros [a ->] Hk. apply Hk. reflexivity. Qed.

Lemma emit_x_then_y_no_fault (s : pass_state) (a b : Z) :
  0 <= pIndex s < Z.of_nat (length (dest s)) ->
  no_fault (emit_x_then_y s a b).
Proof.
  intros H. eexists. apply emit_x_then_y_Ok. split; [exact H | reflexivity].
Qed.

Lemma emit_y_then_x_no_fault (s : pass_state) (a b : Z) :
  0 <= pIndex s < Z.of_nat (length (dest s)) ->
  no_fault (emit_y_then_x s a b).
Proof.
  intros H. eexists. apply emit_y_then_x_Ok. split; [exact H | reflexivity].
Qed.

Lemma lerp_no_fault (t1 u1 t2 u2 c : Z) :
  crosses t1 t2 c ->
  safe_coord t1 -> safe_coord u1 -> safe_coord t2 -> safe_coord u2 ->
  no_fault (lerp t1 u1 t2 u2 c).
Proof.
  unfold safe_coord. intros Hc Ht1 Hu1 Ht2 Hu2.
  pose proof (lerp_quot_between u1 u2 t1 t2 c Hc) as Hq. simpl in Hq.
  assert (Hdc : -46340 <= c - t1 <= 46340) by (unfold crosses in Hc; lia).
  assert (Hp : -2147395600 <= (u2 - u1) * (c - t1) <= 2147395600) by nia.
  assert (Hdt : t2 - t1 <> 0) by (unfold crosses in Hc; lia).
  unfold lerp, int_sub, int_mul, int_div, int_add, INT_MIN, INT_MAX.
  rewrite (checked_in (u2 - u1)), bind_Ok_l by (unfold INT_MIN, INT_MAX; lia).
  rewrite (checked_in (c - t1)), bind_Ok_l by (unfold INT_MIN, INT_MAX; lia).
  rewrite (checked_in (_ * _)), bind_Ok_l by (unfold INT_MIN, INT_MAX; lia).
  rewrite (checked_in (t2 - t1)), bind_Ok_l by (unfold INT_MIN, INT_MAX; lia).
  destruct (Z.eqb_spec (t2 - t1) 0) as [|_]; [contradiction|].
  rewrite (checked_in (Z.quot _ _)), bind_Ok_l
    by (unfold INT_MIN, INT_MAX; lia).
  rewrite checked_in by (unfold INT_MIN, INT_MAX; lia).
  apply no_fault_Ok.
Qed.

Ltac explicit_states :=
  repeat match goal with
  | H : set_start _ _ _ = ?t |- _ => subst t
  | H : ?t = ?t' :> pass_state |- _ => subst t'
  | H : emits _ _ ?t |- _ => destruct H as [? ->]
  end;
  simpl in *.

Lemma x_edge_skip (clip_left clip_right : Z) (sourcePolygon : list vertex)
    (i : Z) (s : pass_state) (v2 : vertex) :
  load sourcePolygon i = Ok v2 ->
  (rx1 s < clip_left /\ x v2 < clip_left) \/
  (clip_right < rx1 s /\ clip_right < x v2) ->
  x_edge clip_left clip_right sourcePolygon i s =
    Ok (set_start s (x v2) (y v2)).
Proof.
  unfold x_edge. intros -> H. simpl. rewrite !Z.gtb_ltb.
  repeat match goal with
  | |- context [ ?a <? ?b ] => destruct (Z.ltb_spec a b); try lia; simpl
  end; reflexivity.
Qed.

Lemma y_edge_skip (clip_top clip_bottom : Z) (clipBuffer : list vertex)
    (i : Z) (s : pass_state) (v2 : vertex) :
  load clipBuffer i = Ok v2 ->
  (ry1 s < clip_top /\ y v2 < clip_top) \/
  (clip_bottom < ry1 s /\ clip_bottom < y v2) ->
  y_edge clip_top clip_bottom clipBuffer i s =
    Ok (set_start s (x v2) (y v2)).
Proof.
  unfold y_edge. intros -> H. simpl. rewrite !Z.gtb_ltb.
  repeat match goal with
  | |- context [ ?a <? ?b ] => destruct (Z.ltb_spec a b); try lia; simpl
  end; reflexivity.
Qed.

Section Skip.

Variable body : Z -> pass_state -> result pass_state.
Variable src : list vertex.
Variable Q : vertex -> Prop.

Hypothesis body_skip : forall i s v2,
  load src i = Ok v2 -> Q (mkVertex (rx1 s) (ry1 s)) -> Q v2 ->
  body i s = Ok (set_start s (x v2) (y v2)).

(** A pass all of whose edges are rejected writes nothing. *)
Lemma while_dec_skip (k : nat) :
  forall s, (k <= length src)%nat -> Z.of_nat k <= 32768 ->
  Q (mkVertex (rx1 s) (ry1 s)) -> Forall Q (take k src) ->
  exists s', while_dec body k s = Ok s' /\
             pIndex s' = pIndex s /\ dest s' = dest s.
Proof.
  induction k as [|k IH]; intros s Hk Hmax Hs Hall.
  - exists s. repeat split.
  - destruct (lookup_lt_is_Some_2 src k ltac:(lia)) as [v2 Hv2].
    assert (H2 : Q v2).
    { rewrite Forall_lookup in Hall. apply (Hall k).
      rewrite lookup_take_lt by lia. exact Hv2. }
    assert (Hall' : Forall Q (take k src)).
    { replace (take k src) with (take k (take (S k) src))
        by (rewrite take_take; f_equal; lia).
      apply Forall_take. exact Hall. }
    cbn [while_dec].
    rewrite to_int16_id by (unfold int16_range; lia).
    rewrite (body_skip _ _ v2), bind_Ok_l; try assumption.
    + destruct (IH (set_start s (x v2) (y v2))) as (s' & Hrun & Hp & Hd);
        try assumption; try lia.
      { simpl. rewrite vertex_eta. exact H2. }
      exists s'. repeat split; assumption.
    + apply load_Ok. split; [lia|]. rewrite Nat2Z.id. exact Hv2.
Qed.

End Skip.

Lemma safe_int16 (z : Z) : safe_coord z -> int16_range z.
Proof. unfold safe_coord, int16_range. lia. Qed.

(** With coordinates that cannot overflow and room for two more vertices,
    an edge of the X pass runs to its end. *)
Lemma x_edge_no_fault (clip_left clip_right : Z) (sourcePolygon : list vertex)
    (i : Z) (s : pass_state) (v2 : vertex) :
  clip_left <= clip_right ->
  load sourcePolygon i = Ok v2 ->
  safe_vertex (mkVertex (rx1 s) (ry1 s)) -> safe_vertex v2 ->
  0 <= pIndex s -> pIndex s + 2 <= Z.of_nat (length (dest s)) ->
  pIndex s + 2 <= 32767 ->
  no_fault (x_edge clip_left clip_right sourcePolygon i s).
Proof.
  unfold safe_vertex, safe_coord. simpl.
  intros Hlr Hload [Hsx Hsy] [H2x H2y] Hp Hcap Hmax.
  assert (Hlo : int16_range (-23170)) by (unfold int16_range; lia).
  assert (Hhi : int16_range 23170) by (unfold int16_range; lia).
  unfold x_edge. rewrite Hload, bind_Ok_l. cbv zeta.
  apply no_fault_bind; [| intros; apply no_fault_Ok].
  destruct (Z.gtb_spec (rx1 s) (x v2)) as [Hgt|Hle].
  - destruct ((rx1 s <? clip_left) || (x v2 >? clip_right)) eqn:Hout;
      [apply no_fault_Ok|].
    apply no_fault_bind.
    { destruct (Z.gtb_spec (rx1 s) clip_right); [| apply no_fault_Ok].
      apply no_fault_bind; [| intros; apply no_fault_Ok].
      inv_run.
      apply lerp_no_fault; unfold crosses, safe_coord; lia. }
    intros s1 Hs1. apply no_fault_bind.
    { apply emit_x_then_y_no_fault. inv_run; explicit_states; lia. }
    intros s2 Hs2.
    destruct (Z.ltb_spec (x v2) clip_left); [| apply no_fault_Ok].
    apply no_fault_bind.
    { inv_run; explicit_states; lerp_bounds (-23170) 23170;
        apply lerp_no_fault; unfold crosses, safe_coord; lia. }
    intros v Hv. apply emit_y_then_x_no_fault.
    inv_run; explicit_states; rewrite length_insert;
      rewrite to_int16_id by (unfold int16_range; lia); lia.
  - destruct ((x v2 <? clip_left) || (rx1 s >? clip_right)) eqn:Hout;
      [apply no_fault_Ok|].
    apply no_fault_bind.
    { destruct (Z.ltb_spec (rx1 s) clip_left); [| apply no_fault_Ok].
      apply no_fault_bind; [| intros; apply no_fault_Ok].
      inv_run.
      apply lerp_no_fault; unfold crosses, safe_coord; lia. }
    intros s1 Hs1. apply no_fault_bind.
    { apply emit_x_then_y_no_fault. inv_run; explicit_states; lia. }
    intros s2 Hs2.
    destruct (Z.gtb_spec (x v2) clip_right); [| apply no_fault_Ok].
    apply no_fault_bind.
    { inv_run; explicit_states; lerp_bounds (-23170) 23170;
        apply lerp_no_fault; unfold crosses, safe_coord; lia. }
    intros v Hv. apply emit_y_then_x_no_fault.
    inv_run; explicit_states; rewrite length_insert;
      rewrite to_int16_id by (unfold int16_range; lia); lia.
Qed.

(** An edge writes at most two vertices and keeps the size of the array. *)
Lemma x_edge_progress (clip_left clip_right : Z) (sourcePolygon : list vertex)
    (i : Z) (s s' : pass_state) :
  x_edge clip_left clip_right sourcePolygon i s = Ok s' ->
  0 <= pIndex s -> pIndex s + 2 <= 32767 ->
  pIndex s <= pIndex s' <= pIndex s + 2 /\
  length (dest s') = length (dest s).
Proof.
  intros Hrun Hp Hmax. unfold x_edge in Hrun.
  apply bind_Ok in Hrun. destruct Hrun as (v2 & _ & Hrun). simpl in Hrun.
  inv_run; explicit_states; rewrite ?length_insert;
    rewrite ?(to_int16_id (pIndex s + 1)) in * by (unfold int16_range; lia);
    rewrite ?(to_int16_id (pIndex s + 1 + 1)) in *
      by (unfold int16_range; lia);
    (split; [lia | reflexivity]).
Qed.

(** The X pass over a polygon of safe coordinates runs to its end when its
    destination has room for two vertices per edge; what it writes lies
    between the X bounds, with [y] in any interval that holds every [y] of
    the source. *)
Lemma x_pass_total (clip_left clip_right : Z) (sourcePolygon : list vertex)
    (lo hi : Z) (k : nat) :
  clip_left <= clip_right ->
  int16_range lo -> int16_range hi ->
  (k <= length sourcePolygon)%nat ->
  Forall safe_vertex (take k sourcePolygon) ->
  Forall (in_y lo hi) (take k sourcePolygon) ->
  forall s,
  safe_vertex (mkVertex (rx1 s) (ry1 s)) ->
  in_y lo hi (mkVertex (rx1 s) (ry1 s)) ->
  emitted_all (in_y lo hi) s ->
  0 <= pIndex s ->
  pIndex s + 2 * Z.of_nat k <= Z.of_nat (length (dest s)) ->
  pIndex s + 2 * Z.of_nat k <= 32767 ->
  exists s',
    x_pass clip_left clip_right sourcePolygon k s = Ok s' /\
    emitted_all (in_y lo hi) s' /\
    0 <= pIndex s' <= pIndex s + 2 * Z.of_nat k /\
    length (dest s') = length (dest s).
Proof.
  intros Hlr Hlo Hhi. unfold x_pass.
  induction k as [|k IH]; intros Hk Hsafe Hy s Hs Hsy Hall Hp Hcap Hmax.
  - exists s. simpl.
    split; [reflexivity|]. split; [exact Hall|]. split; [lia | reflexivity].
  - destruct (lookup_lt_is_Some_2 sourcePolygon k ltac:(lia)) as [v2 Hv2].
    assert (Hload : load sourcePolygon (to_int16 (Z.of_nat k)) = Ok v2).
    { rewrite to_int16_id by (unfold int16_range; lia).
      apply load_Ok. split; [lia|]. rewrite Nat2Z.id. exact Hv2. }
    assert (H2s : safe_vertex v2).
    { rewrite Forall_lookup in Hsafe. apply (Hsafe k).
      rewrite lookup_take_lt by lia. exact Hv2. }
    assert (H2y : in_y lo hi v2).
    { rewrite Forall_lookup in Hy. apply (Hy k).
      rewrite lookup_take_lt by lia. exact Hv2. }
    assert (Htake : forall Q : vertex -> Prop,
              Forall Q (take (S k) sourcePolygon) ->
              Forall Q (take k sourcePolygon)).
    { intros Q HQ.
      replace (take k sourcePolygon)
        with (take k (take (S k) sourcePolygon))
        by (rewrite take_take; f_equal; lia).
      apply Forall_take. exact HQ. }
    destruct (x_edge_no_fault clip_left clip_right sourcePolygon
                (to_int16 (Z.of_nat k)) s v2)
      as [s1 Hs1]; try assumption; try lia.
    destruct (x_edge_progress _ _ _ _ _ _ Hs1) as [Hp1 Hlen1]; try lia.
    destruct (x_edge_start _ _ _ _ _ _ Hs1) as (v2' & Hload' & Hx1 & Hy1).
    rewrite Hload in Hload'. injection Hload' as <-.
    assert (Hall1 : emitted_all (in_y lo hi) s1).
    { apply (x_edge_emitted_all _ _ _ _ _ _ _ _ Hlr Hload Hs1);
        [| exact Hall].
      intros e [_ He]. apply He; assumption. }
    destruct (IH ltac:(lia) (Htake _ Hsafe) (Htake _ Hy) s1)
      as (s' & Hrun & Hall' & Hp' & Hlen'); try assumption; try lia.
    + rewrite Hx1, Hy1, vertex_eta. exact H2s.
    + rewrite Hx1, Hy1, vertex_eta. exact H2y.
    + exists s'. cbn [while_dec]. rewrite Hs1, bind_Ok_l.
      split; [exact Hrun|]. split; [exact Hall'|].
      split; [lia | rewrite Hlen'; exact Hlen1].
Qed.

(** ** Edges that cross one bound

    Walked in either direction, an edge that crosses one bound of the X
    pass only is cut at the same vertex: both walks interpolate from the
    end that lies beyond the bound, with the same expression. *)
Lemma single_crossing_same_vertex_left (clip_left clip_right : Z)
    (a b : vertex) (src1 src2 : list vertex) (i1 i2 : Z)
    (s1 s2 s1' s2' : pass_state) :
  clip_left <= clip_right ->
  x b < clip_left <= x a -> x a <= clip_right ->
  load src1 i1 = Ok b -> rx1 s1 = x a -> ry1 s1 = y a ->
  load src2 i2 = Ok a -> rx1 s2 = x b -> ry1 s2 = y b ->
  pIndex s1 <= 32767 ->
  x_edge clip_left clip_right src1 i1 s1 = Ok s1' ->
  x_edge clip_left clip_right src2 i2 s2 = Ok s2' ->
  exists v,
    lerp (x b) (y b) (x a) (y a) clip_left = Ok v /\
    dest s1' !! Z.to_nat (pIndex s1 + 1)
      = Some (mkVertex clip_left (to_int16 v)) /\
    dest s2' !! Z.to_nat (pIndex s2)
      = Some (mkVertex clip_left (to_int16 v)).
Proof.
  intros Hlr Hb Ha Hl1 Hx1 Hy1 Hl2 Hx2 Hy2 Hp R1 R2.
  unfold x_edge in R1, R2. rewrite Hl1 in R1. rewrite Hl2 in R2.
  simpl in R1, R2. rewrite Hx1, Hy1 in R1. rewrite Hx2, Hy2 in R2.
  inv_run; try lia.
  explicit_states.
  rewrite Hx1, Hy1 in *.
  match goal with
  | H : lerp (x b) (y b) (x a) (y a) clip_left = Ok ?v,
    H' : lerp (x b) (y b) (x a) (y a) clip_left = Ok ?w |- _ =>
      rewrite H in H'; injection H' as <-; exists v; split; [exact H|]
  end.
  assert (Hnext : to_int16 (pIndex s1 + 1) = pIndex s1 + 1).
  { destruct (Z.eq_dec (pIndex s1) 32767) as [E|E].
    - match goal with
      | H : 0 <= to_int16 (pIndex s1 + 1) < _ |- _ =>
          rewrite E in H; change (to_int16 (32767 + 1)) with (-32768) in H;
          lia
      end.
    - apply to_int16_id. unfold int16_range. lia. }
  rewrite Hnext in *. rewrite ?length_insert in *.
  split; apply list_lookup_insert_eq; rewrite ?length_insert; lia.
Qed.

Lemma single_crossing_same_vertex_right (clip_left clip_right : Z)
    (a b : vertex) (src1 src2 : list vertex) (i1 i2 : Z)
    (s1 s2 s1' s2' : pass_state) :
  clip_left <= clip_right ->
  x a <= clip_right < x b -> clip_left <= x a ->
  load src1 i1 = Ok b -> rx1 s1 = x a -> ry1 s1 = y a ->
  load src2 i2 = Ok a -> rx1 s2 = x b -> ry1 s2 = y b ->
  pIndex s1 <= 32767 ->
  x_edge clip_left clip_right src1 i1 s1 = Ok s1' ->
  x_edge clip_left clip_right src2 i2 s2 = Ok s2' ->
  exists v,
    lerp (x b) (y b) (x a) (y a) clip_right = Ok v /\
    dest s1' !! Z.to_nat (pIndex s1 + 1)
      = Some (mkVertex clip_right (to_int16 v)) /\
    dest s2' !! Z.to_nat (pIndex s2)
      = Some (mkVertex clip_right (to_int16 v)).
Proof.
  intros Hlr Hb Ha Hl1 Hx1 Hy1 Hl2 Hx2 Hy2 Hp R1 R2.
  unfold x_edge in R1, R2. rewrite Hl1 in R1. rewrite Hl2 in R2.
  simpl in R1, R2. rewrite Hx1, Hy1 in R1. rewrite Hx2, Hy2 in R2.
  inv_run; try lia.
  explicit_states.
  rewrite Hx1, Hy1 in *.
  match goal with
  | H : lerp (x b) (y b) (x a) (y a) clip_right = Ok ?v,
    H' : lerp (x b) (y b) (x a) (y a) clip_right = Ok ?w |- _ =>
      rewrite H in H'; injection H' as <-; exists v; split; [exact H|]
  end.
  assert (Hnext : to_int16 (pIndex s1 + 1) = pIndex s1 + 1).
  { destruct (Z.eq_dec (pIndex s1) 32767) as [E|E].
    - match goal with
      | H : 0 <= to_int16 (pIndex s1 + 1) < _ |- _ =>
          rewrite E in H; change (to_int16 (32767 + 1)) with (-32768) in H;
          lia
      end.
    - apply to_int16_id. unfold int16_range. lia. }
  rewrite Hnext in *. rewrite ?length_insert in *.
  split; apply list_lookup_insert_eq; rewrite ?length_insert; lia.
Qed.

(** * The claims of the specification *)

(** ** Concrete scenario *)

(** C1. The square (0,0),(10,0),(10,10),(0,10), clipped against left=5,
    right=15, top=-5, bottom=15 with buffers of 8 vertices, gives the count
    4, and the first 4 entries of the output are (5,10),(5,0),(10,0),(10,10):
    the closed polygon (5,0),(10,0),(10,10),(5,10), in the same traversal
    order, starting from its last vertex. *)
Theorem square_clipped_to_rectangle (clipBuffer clippedPolygon : list vertex) :
  length clipBuffer = 8%nat -> length clippedPolygon = 8%nat ->
  exists cb' cp',
    TwoAxisPolygonClip square 4 square_region clipBuffer clippedPolygon
      = Ok (4, cb', cp') /\
    take 4 cp' =
      [mkVertex 5 10; mkVertex 5 0; mkVertex 10 0; mkVertex 10 10] /\
    take 4 cp' =
      rotate 3 [mkVertex 5 0; mkVertex 10 0; mkVertex 10 10; mkVertex 5 10].
Proof.
  intros Hcb Hcp.
  do 9 (destruct clipBuffer as [|? clipBuffer]; try discriminate Hcb).
  do 9 (destruct clippedPolygon as [|? clippedPolygon];
        try discriminate Hcp).
  vm_compute. eexists. eexists. repeat split.
Qed.

Lemma square_clipped_to_rectangle_witness :
  exists cb' cp',
    TwoAxisPolygonClip square 4 square_region (blank 8) (blank 8)
      = Ok (4, cb', cp') /\
    take 4 cp' =
      [mkVertex 5 10; mkVertex 5 0; mkVertex 10 0; mkVertex 10 10] /\
    take 4 cp' =
      rotate 3 [mkVertex 5 0; mkVertex 10 0; mkVertex 10 10; mkVertex 5 10].
Proof.
  apply (square_clipped_to_rectangle (blank 8) (blank 8)); reflexivity.
Defined.

(** ** Full containment *)

(** C2. A polygon of at least 3 vertices, all of them inside the clip
    region (bounds included), is copied through: the call returns
    [nVertices] and the first [nVertices] entries of the output are the
    source vertices in the same order.  The buffers only need room for
    [nVertices] vertices. *)
Theorem inside_polygon_unchanged (sourcePolygon : list vertex) (r : clipRect)
    (clipBuffer clippedPolygon : list vertex) :
  (3 <= length sourcePolygon)%nat ->
  Z.of_nat (length sourcePolygon) <= 32767 ->
  Forall (inside r) sourcePolygon ->
  (length sourcePolygon <= length clipBuffer)%nat ->
  (length sourcePolygon <= length clippedPolygon)%nat ->
  exists cb' cp',
    TwoAxisPolygonClip sourcePolygon (Z.of_nat (length sourcePolygon)) r
      clipBuffer clippedPolygon
      = Ok (Z.of_nat (length sourcePolygon), cb', cp') /\
    take (length sourcePolygon) cp' = sourcePolygon.
Proof.
  intros H3 Hmax Hin Hcb Hcp.
  destruct (clip_copy sourcePolygon (length sourcePolygon) r
              clipBuffer clippedPolygon)
    as (cb' & cp' & Hrun & Htake & _); try assumption; try lia.
  { rewrite take_ge by lia. exact Hin. }
  exists cb', cp'. split; [exact Hrun|].
  rewrite Htake. apply take_ge. lia.
Qed.

Lemma inside_polygon_unchanged_witness :
  exists cb' cp',
    TwoAxisPolygonClip square 4 (mkClipRect 0 10 0 10) (blank 8) (blank 8)
      = Ok (4, cb', cp') /\
    take 4 cp' = square.
Proof.
  apply (inside_polygon_unchanged square (mkClipRect 0 10 0 10)
           (blank 8) (blank 8)).
  - simpl. lia.
  - simpl. lia.
  - unfold square, inside, in_x, in_y. repeat constructor; simpl; lia.
  - simpl. lia.
  - simpl. lia.
Defined.

(** ** Total exclusion *)

(** A polygon beyond the left or the right bound: every edge of the X pass
    is rejected, the pass writes nothing and the call returns 0. *)
Lemma outside_x_returns_0 (sourcePolygon : list vertex) (r : clipRect)
    (clipBuffer clippedPolygon : list vertex) :
  (1 <= length sourcePolygon)%nat ->
  Z.of_nat (length sourcePolygon) <= 32767 ->
  beyond_x r sourcePolygon ->
  TwoAxisPolygonClip sourcePolygon (Z.of_nat (length sourcePolygon)) r
    clipBuffer clippedPolygon = Ok (0, clipBuffer, clippedPolygon).
Proof.
  intros Hn Hmax Hout.
  destruct sourcePolygon as [|v0 rest] eqn:Esrc; [simpl in Hn; lia|].
  rewrite <- Esrc in *.
  assert (Hl0 : load sourcePolygon 0 = Ok v0)
    by (subst; apply load_Ok; split; [lia | reflexivity]).
  unfold TwoAxisPolygonClip, x_pass. cbv zeta.
  rewrite Hl0, bind_Ok_l, iterations_nat by lia.
  assert (Hskip : exists s',
            while_dec (x_edge (clipLeft r) (clipRight r) sourcePolygon)
              (length sourcePolygon) (mkState (x v0) (y v0) 0 clipBuffer)
              = Ok s' /\
            pIndex s' = 0 /\ dest s' = clipBuffer).
  { destruct Hout as [Hall|Hall].
    - apply (while_dec_skip _ sourcePolygon (fun v => x v < clipLeft r));
        try lia.
      + intros i s v2 Hload Hs H2. apply x_edge_skip; [exact Hload|].
        left. split; assumption.
      + simpl. rewrite Esrc in Hall. inversion Hall; assumption.
      + rewrite take_ge by lia. exact Hall.
    - apply (while_dec_skip _ sourcePolygon (fun v => clipRight r < x v));
        try lia.
      + intros i s v2 Hload Hs H2. apply x_edge_skip; [exact Hload|].
        right. split; assumption.
      + simpl. rewrite Esrc in Hall. inversion Hall; assumption.
      + rewrite take_ge by lia. exact Hall. }
  destruct Hskip as (s' & -> & Hp & Hd). rewrite bind_Ok_l, Hp, Hd.
  reflexivity.
Qed.

(** *** When the X pass is defined *)

Lemma lerp_no_fault_bounded (t1 u1 t2 u2 c a b : Z) :
  crosses t1 t2 c ->
  int16_range t1 -> int16_range u1 -> int16_range t2 -> int16_range u2 ->
  Z.abs (t2 - t1) <= a -> Z.abs (u2 - u1) <= b -> a * b <= INT_MAX ->
  no_fault (lerp t1 u1 t2 u2 c).
Proof.
  unfold int16_range, INT_MAX. intros Hc Ht1 Hu1 Ht2 Hu2 Ha Hb Hab.
  pose proof (lerp_quot_between u1 u2 t1 t2 c Hc) as Hq. simpl in Hq.
  assert (Hdc : Z.abs (c - t1) <= a) by (unfold crosses in Hc; lia).
  assert (Hp : Z.abs ((u2 - u1) * (c - t1)) <= 2147483647).
  { rewrite Z.abs_mul.
    apply Z.le_trans with (b * a); [| lia].
    apply Z.mul_le_mono_nonneg; lia. }
  assert (Hdt : t2 - t1 <> 0) by (unfold crosses in Hc; lia).
  unfold lerp, int_sub, int_mul, int_div, int_add.
  rewrite (checked_in (u2 - u1)), bind_Ok_l by (unfold INT_MIN, INT_MAX; lia).
  rewrite (checked_in (c - t1)), bind_Ok_l
    by (unfold INT_MIN, INT_MAX, crosses in *; lia).
  rewrite (checked_in (_ * _)), bind_Ok_l by (unfold INT_MIN, INT_MAX; lia).
  rewrite (checked_in (t2 - t1)), bind_Ok_l by (unfold INT_MIN, INT_MAX; lia).
  destruct (Z.eqb_spec (t2 - t1) 0) as [|_]; [contradiction|].
  rewrite (checked_in (Z.quot _ _)), bind_Ok_l
    by (unfold INT_MIN, INT_MAX; lia).
  rewrite checked_in by (unfold INT_MIN, INT_MAX; lia).
  apply no_fault_Ok.
Qed.

(** An edge between two [int16_t] vertices whose distances along the two
    axes have a product that fits an [int] runs to its end, given room for
    two more vertices. *)
Lemma x_edge_no_fault_int16 (clip_left clip_right : Z)
    (sourcePolygon : list vertex) (i : Z) (s : pass_state) (v2 : vertex) :
  clip_left <= clip_right ->
  load sourcePolygon i = Ok v2 ->
  int16_vertex (mkVertex (rx1 s) (ry1 s)) -> int16_vertex v2 ->
  Z.abs (x v2 - rx1 s) * Z.abs (y v2 - ry1 s) <= INT_MAX ->
  0 <= pIndex s -> pIndex s + 2 <= Z.of_nat (length (dest s)) ->
  pIndex s + 2 <= 32767 ->
  no_fault (x_edge clip_left clip_right sourcePolygon i s).
Proof.
  unfold int16_vertex. simpl.
  intros Hlr Hload [Hsx Hsy] [H2x H2y] Hfit Hp Hcap Hmax.
  assert (Hlo : int16_range (Z.min (ry1 s) (y v2)))
    by (unfold int16_range in *; lia).
  assert (Hhi : int16_range (Z.max (ry1 s) (y v2)))
    by (unfold int16_range in *; lia).
  assert (Hcr : forall z, x v2 <= z <= rx1 s \/ rx1 s <= z <= x v2 ->
                          int16_range z)
    by (unfold int16_range in *; lia).
  assert (Hyr : forall z, Z.min (ry1 s) (y v2) <= z <= Z.max (ry1 s) (y v2) ->
                          int16_range z)
    by (unfold int16_range in *; lia).
  unfold x_edge. rewrite Hload, bind_Ok_l. cbv zeta.
  apply no_fault_bind; [| intros; apply no_fault_Ok].
  destruct (Z.gtb_spec (rx1 s) (x v2)) as [Hgt|Hle].
  - destruct ((rx1 s <? clip_left) || (x v2 >? clip_right)) eqn:Hout;
      [apply no_fault_Ok|].
    apply no_fault_bind.
    { destruct (Z.gtb_spec (rx1 s) clip_right); [| apply no_fault_Ok].
      apply no_fault_bind; [| intros; apply no_fault_Ok].
      inv_run.
      eapply lerp_no_fault_bounded;
        [ unfold crosses; lia | exact Hsx | exact Hsy | exact H2x
        | exact H2y | apply Z.le_refl | apply Z.le_refl | exact Hfit ]. }
    intros s1 Hs1. apply no_fault_bind.
    { apply emit_x_then_y_no_fault. inv_run; explicit_states; lia. }
    intros s2 Hs2.
    destruct (Z.ltb_spec (x v2) clip_left); [| apply no_fault_Ok].
    apply no_fault_bind.
    { inv_run; explicit_states;
        lerp_bounds (Z.min (ry1 s) (y v2)) (Z.max (ry1 s) (y v2));
        (eapply lerp_no_fault_bounded;
           [ unfold crosses; lia | | | | | | | exact Hfit ];
           first [ assumption | apply Hcr; lia | apply Hyr; lia | lia ]). }
    intros v Hv. apply emit_y_then_x_no_fault.
    inv_run; explicit_states; rewrite length_insert;
      rewrite to_int16_id by (unfold int16_range; lia); lia.
  - destruct ((x v2 <? clip_left) || (rx1 s >? clip_right)) eqn:Hout;
      [apply no_fault_Ok|].
    apply no_fault_bind.
    { destruct (Z.ltb_spec (rx1 s) clip_left); [| apply no_fault_Ok].
      apply no_fault_bind; [| intros; apply no_fault_Ok].
      inv_run.
      eapply lerp_no_fault_bounded;
        [ unfold crosses; lia | exact Hsx | exact Hsy | exact H2x
        | exact H2y | apply Z.le_refl | apply Z.le_refl | exact Hfit ]. }
    intros s1 Hs1. apply no_fault_bind.
    { apply emit_x_then_y_no_fault. inv_run; explicit_states; lia. }
    intros s2 Hs2.
    destruct (Z.gtb_spec (x v2) clip_right); [| apply no_fault_Ok].
    apply no_fault_bind.
    { inv_run; explicit_states;
        lerp_bounds (Z.min (ry1 s) (y v2)) (Z.max (ry1 s) (y v2));
        (eapply lerp_no_fault_bounded;
           [ unfold crosses; lia | | | | | | | exact Hfit ];
           first [ assumption | apply Hcr; lia | apply Hyr; lia | lia ]). }
    intros v Hv. apply emit_y_then_x_no_fault.
    inv_run; explicit_states; rewrite length_insert;
      rewrite to_int16_id by (unfold int16_range; lia); lia.
Qed.

Lemma elem_of_load (a : list vertex) (i : Z) (v : vertex) :
  load a i = Ok v -> v ∈ a.
Proof.
  intros [_ Hv]%load_Ok. apply list_elem_of_lookup. eauto.
Qed.

(** The X pass of a call runs to its end under its preconditions. *)
Lemma x_pass_no_fault (clip_left clip_right : Z) (sourcePolygon : list vertex)
    (k : nat) :
  clip_left <= clip_right ->
  Forall int16_vertex sourcePolygon ->
  extent_fits_int sourcePolygon ->
  (k <= length sourcePolygon)%nat ->
  forall s,
  mkVertex (rx1 s) (ry1 s) ∈ sourcePolygon ->
  0 <= pIndex s ->
  pIndex s + 2 * Z.of_nat k <= Z.of_nat (length (dest s)) ->
  pIndex s + 2 * Z.of_nat k <= 32767 ->
  no_fault (x_pass clip_left clip_right sourcePolygon k s).
Proof.
  intros Hlr Hint Hfit. unfold x_pass.
  induction k as [|k IH]; intros Hk s Hs Hp Hcap Hmax.
  - apply no_fault_Ok.
  - destruct (lookup_lt_is_Some_2 sourcePolygon k ltac:(lia)) as [v2 Hv2].
    assert (Hload : load sourcePolygon (to_int16 (Z.of_nat k)) = Ok v2).
    { rewrite to_int16_id by (unfold int16_range; lia).
      apply load_Ok. split; [lia|]. rewrite Nat2Z.id. exact Hv2. }
    pose proof (elem_of_load _ _ _ Hload) as Hin2.
    rewrite Forall_forall in Hint.
    cbn [while_dec]. apply no_fault_bind.
    + apply (x_edge_no_fault_int16 _ _ _ _ _ v2); try assumption; try lia.
      * apply Hint. exact Hs.
      * apply Hint. exact Hin2.
      * exact (Hfit _ _ Hs Hin2).
    + intros s1 Hs1.
      destruct (x_edge_progress _ _ _ _ _ _ Hs1) as [Hp1 Hlen1]; try lia.
      destruct (x_edge_start _ _ _ _ _ _ Hs1) as (w & Hload' & Hx1 & Hy1).
      rewrite Hload in Hload'. injection Hload' as <-.
      apply IH; try lia.
      rewrite Hx1, Hy1, vertex_eta. exact Hin2.
Qed.

Lemma x_pass_defined (sourcePolygon : list vertex) (r : clipRect)
    (clipBuffer : list vertex) :
  (1 <= length sourcePolygon)%nat ->
  x_pass_preconditions r sourcePolygon clipBuffer ->
  no_fault
    (x_pass_of_call sourcePolygon (Z.of_nat (length sourcePolygon)) r
       clipBuffer).
Proof.
  intros Hn (Hlr & Hint & Hfit & Hcap & Hmax). unfold x_pass_of_call.
  destruct sourcePolygon as [|v0 rest] eqn:Esrc; [simpl in Hn; lia|].
  rewrite <- Esrc in *.
  assert (Hl0 : load sourcePolygon 0 = Ok v0)
    by (subst; apply load_Ok; split; [lia | reflexivity]).
  rewrite Hl0, bind_Ok_l, iterations_nat by lia.
  apply x_pass_no_fault; simpl; try assumption; try lia.
  rewrite vertex_eta. exact (elem_of_load _ _ _ Hl0).
Qed.

(** A polygon in a box whose width times height is at most [INT_MAX]. *)
Lemma extent_fits_box (xlo xhi ylo yhi : Z) (p : list vertex) :
  Forall (in_box xlo xhi ylo yhi) p ->
  (xhi - xlo) * (yhi - ylo) <= INT_MAX ->
  extent_fits_int p.
Proof.
  intros Hbox Harea a b Ha Hb. rewrite Forall_forall in Hbox.
  destruct (Hbox a Ha) as [Hax Hay]. destruct (Hbox b Hb) as [Hbx Hby].
  unfold in_x, in_y in *.
  apply Z.le_trans with ((xhi - xlo) * (yhi - ylo)); [| exact Harea].
  apply Z.mul_le_mono_nonneg; lia.
Qed.

(** *** Beyond the top or the bottom bound *)

Lemma clip_after_x_pass (sourcePolygon : list vertex) (nVertices : Z)
    (r : clipRect) (clipBuffer clippedPolygon : list vertex) :
  TwoAxisPolygonClip sourcePolygon nVertices r clipBuffer clippedPolygon =
    (s ← x_pass_of_call sourcePolygon nVertices r clipBuffer;
     if pIndex s <? 3 then Ok (pIndex s, dest s, clippedPolygon)
     else
       w0 ← load (dest s) 0;
       s' ← y_pass (clipTop r) (clipBottom r) (dest s)
              (iterations (pIndex s))
              (mkState (x w0) (y w0) 0 clippedPolygon);
       Ok (pIndex s', dest s, dest s')).
Proof.
  unfold TwoAxisPolygonClip, x_pass_of_call. cbv zeta.
  destruct (load sourcePolygon 0) as [v0|f]; reflexivity.
Qed.

(** What the X pass writes has its [y] in any [int16_t] interval that
    holds every [y] of the source array. *)
Lemma x_pass_in_y (clip_left clip_right lo hi : Z)
    (sourcePolygon : list vertex) (k : nat) (s s' : pass_state) :
  clip_left <= clip_right ->
  int16_range lo -> int16_range hi ->
  Forall (in_y lo hi) sourcePolygon ->
  in_y lo hi (mkVertex (rx1 s) (ry1 s)) ->
  emitted_all (in_y lo hi) s ->
  x_pass clip_left clip_right sourcePolygon k s = Ok s' ->
  emitted_all (in_y lo hi) s'.
Proof.
  intros Hlr Hlo Hhi Hsrc Hstart Hall Hrun. unfold x_pass in Hrun.
  pose (Inv := fun t : pass_state =>
          in_y lo hi (mkVertex (rx1 t) (ry1 t)) /\ emitted_all (in_y lo hi) t).
  assert (HInv : Inv s'); [| exact (proj2 HInv)].
  refine (while_dec_invariant Inv _ k _ s s' (conj Hstart Hall) Hrun).
  intros k' a b _ [Ha Hwritten] Hstep.
  destruct (x_edge_start _ _ _ _ _ _ Hstep) as (v2 & Hload & Hx & Hy).
  assert (Hv2 : in_y lo hi v2).
  { rewrite Forall_forall in Hsrc. apply Hsrc.
    exact (elem_of_load _ _ _ Hload). }
  split.
  - rewrite Hx, Hy, vertex_eta. exact Hv2.
  - apply (x_edge_emitted_all _ _ _ _ _ _ _ _ Hlr Hload Hstep);
      [| exact Hwritten].
    intros e [_ He]. apply He; assumption.
Qed.

(** An [int16_t] interval of [y] that holds the polygon and misses the
    region. *)
Lemma y_band (r : clipRect) (p : list vertex) (v0 : vertex) :
  v0 ∈ p ->
  Forall (fun v => int16_range (y v)) p ->
  beyond_y r p ->
  exists lo hi,
    int16_range lo /\ int16_range hi /\ Forall (in_y lo hi) p /\
    (hi < clipTop r \/ clipBottom r < lo).
Proof.
  intros Hv0 Hint Hout. rewrite Forall_forall in Hint.
  pose proof (Hint v0 Hv0) as H0. unfold int16_range in H0.
  destruct Hout as [Hall|Hall]; rewrite Forall_forall in Hall;
    pose proof (Hall v0 Hv0) as H1.
  - exists (-32768), (Z.min 32767 (clipTop r - 1)).
    unfold int16_range. repeat split; try lia.
    apply Forall_forall. intros v Hv.
    specialize (Hall v Hv). specialize (Hint v Hv).
    unfold in_y, int16_range in *. lia.
  - exists (Z.max (-32768) (clipBottom r + 1)), 32767.
    unfold int16_range. repeat split; try lia.
    apply Forall_forall. intros v Hv.
    specialize (Hall v Hv). specialize (Hint v Hv).
    unfold in_y, int16_range in *. lia.
Qed.

(** The Y pass over vertices that all lie beyond the top or the bottom
    bound rejects every edge: the rest of the call returns 0 and leaves the
    output buffer alone. *)
Lemma y_pass_rejects_band (r : clipRect) (lo hi : Z) (s : pass_state)
    (clippedPolygon : list vertex) :
  emitted_all (in_y lo hi) s ->
  hi < clipTop r \/ clipBottom r < lo ->
  3 <= pIndex s ->
  (w0 ← load (dest s) 0;
   s' ← y_pass (clipTop r) (clipBottom r) (dest s) (iterations (pIndex s))
          (mkState (x w0) (y w0) 0 clippedPolygon);
   Ok (pIndex s', dest s, dest s'))
  = Ok (0, dest s, clippedPolygon).
Proof.
  intros Hall Hmiss Hge.
  pose proof Hall as (Hr & Hle & Hwritten). unfold int16_range in Hr.
  destruct (lookup_lt_is_Some_2 (dest s) 0 ltac:(lia)) as [w0 Hw0].
  assert (Hl1 : load (dest s) 0 = Ok w0)
    by (apply load_Ok; split; [lia | exact Hw0]).
  rewrite Hl1, bind_Ok_l.
  unfold iterations, y_pass. rewrite Z.mod_small by lia.
  assert (Hw0y : in_y lo hi w0).
  { apply (emitted_all_lookup _ _ _ _ Hall Hl1). lia. }
  assert (Hskip : exists s',
            while_dec (y_edge (clipTop r) (clipBottom r) (dest s))
              (Z.to_nat (pIndex s)) (mkState (x w0) (y w0) 0 clippedPolygon)
              = Ok s' /\
            pIndex s' = 0 /\ dest s' = clippedPolygon).
  { destruct Hmiss as [Hmiss|Hmiss].
    - apply (while_dec_skip _ (dest s) (fun v => y v < clipTop r));
        try lia.
      + intros i a v2 Hload Ha H2. apply y_edge_skip; [exact Hload|].
        left. split; assumption.
      + simpl. unfold in_y in Hw0y. lia.
      + eapply Forall_impl; [exact Hwritten|].
        intros v Hv. unfold in_y in Hv. lia.
    - apply (while_dec_skip _ (dest s) (fun v => clipBottom r < y v));
        try lia.
      + intros i a v2 Hload Ha H2. apply y_edge_skip; [exact Hload|].
        right. split; assumption.
      + simpl. unfold in_y in Hw0y. lia.
      + eapply Forall_impl; [exact Hwritten|].
        intros v Hv. unfold in_y in Hv. lia. }
  destruct Hskip as (s' & -> & Hp' & Hd'). rewrite bind_Ok_l, Hp', Hd'.
  reflexivity.
Qed.

(** A polygon above the top or below the bottom bound: whatever the X pass
    writes is still beyond that bound, so that the call returns as soon as
    its X pass does, with the X-pass count when that is below 3 and with 0
    otherwise. *)
Lemma outside_y_invisible (sourcePolygon : list vertex) (nVertices : Z)
    (r : clipRect) (clipBuffer clippedPolygon : list vertex)
    (s : pass_state) :
  clipLeft r <= clipRight r ->
  Forall (fun v => int16_range (y v)) sourcePolygon ->
  beyond_y r sourcePolygon ->
  x_pass_of_call sourcePolygon nVertices r clipBuffer = Ok s ->
  exists c,
    TwoAxisPolygonClip sourcePolygon nVertices r clipBuffer clippedPolygon
      = Ok (c, dest s, clippedPolygon) /\
    c < 3.
Proof.
  intros Hlr Hint Hout Hx.
  rewrite clip_after_x_pass, Hx, bind_Ok_l.
  unfold x_pass_of_call in Hx.
  apply bind_Ok in Hx. destruct Hx as (v0 & Hl0 & Hx).
  pose proof (elem_of_load _ _ _ Hl0) as Hv0.
  destruct (y_band r sourcePolygon v0 Hv0 Hint Hout)
    as (lo & hi & Hlo & Hhi & Hband & Hmiss).
  assert (Hall : emitted_all (in_y lo hi) s).
  { apply (x_pass_in_y _ _ lo hi _ _ _ _ Hlr Hlo Hhi Hband) in Hx;
      [exact Hx | | apply emitted_all_init].
    simpl. rewrite vertex_eta.
    rewrite Forall_forall in Hband. exact (Hband v0 Hv0). }
  destruct (Z.ltb_spec (pIndex s) 3) as [Hlt|Hge].
  - exists (pIndex s). split; [reflexivity | exact Hlt].
  - exists 0. split; [| lia].
    exact (y_pass_rejects_band r lo hi s clippedPolygon Hall Hmiss Hge).
Qed.

(** A triangle above a region, with coordinates near the end of the
    [int16_t] range: the X pass is defined. *)
Lemma high_triangle_preconditions :
  x_pass_preconditions low_region high_triangle (blank 6).
Proof.
  split; [simpl; lia|].
  split; [unfold int16_vertex, int16_range; repeat constructor; simpl; lia|].
  split; [| simpl; lia].
  apply (extent_fits_box 30000 30010 0 5).
  - unfold in_box, in_x, in_y. repeat constructor; simpl; lia.
  - unfold INT_MAX. lia.
Defined.

(** C3. A polygon that lies entirely beyond one bound of the region (all
    [x < left], all [x > right], all [y < top] or all [y > bottom]) is
    invisible.  Every call on it that returns, returns a count below 3 and
    leaves the output buffer alone; the count is 0 when the bound is the
    left or the right one, as for a triangle to the left of [left = 100].
    Beyond the left or the right bound the call always returns.  Beyond
    the top or the bottom bound, for a region with [left <= right] and
    [int16_t] ordinates, the X pass clips and the call returns exactly
    when its X pass runs to its end, which it does whenever no
    interpolation can overflow and the scratch buffer has
    [2 * nVertices] entries. *)
Theorem entirely_outside_invisible (sourcePolygon : list vertex)
    (r : clipRect) (clipBuffer clippedPolygon : list vertex) :
  (1 <= length sourcePolygon)%nat ->
  Z.of_nat (length sourcePolygon) <= 32767 ->
  beyond_single_bound r sourcePolygon ->
  beyond_x r sourcePolygon \/
    (clipLeft r <= clipRight r /\
     Forall (fun v => int16_range (y v)) sourcePolygon) ->
  (forall c cb' cp',
     TwoAxisPolygonClip sourcePolygon (Z.of_nat (length sourcePolygon)) r
       clipBuffer clippedPolygon = Ok (c, cb', cp') ->
     c < 3 /\ cp' = clippedPolygon /\
     (beyond_x r sourcePolygon -> c = 0)) /\
  (beyond_x r sourcePolygon \/
   no_fault (x_pass_of_call sourcePolygon
               (Z.of_nat (length sourcePolygon)) r clipBuffer) \/
   x_pass_preconditions r sourcePolygon clipBuffer ->
   exists c cb',
     TwoAxisPolygonClip sourcePolygon (Z.of_nat (length sourcePolygon)) r
       clipBuffer clippedPolygon = Ok (c, cb', clippedPolygon) /\
     c < 3 /\
     (beyond_x r sourcePolygon -> c = 0)).
Proof.
  intros Hn Hmax Hout Hpre.
  assert (Hx : beyond_x r sourcePolygon ->
               TwoAxisPolygonClip sourcePolygon
                 (Z.of_nat (length sourcePolygon)) r
                 clipBuffer clippedPolygon
                 = Ok (0, clipBuffer, clippedPolygon)).
  { intros H. apply outside_x_returns_0; [exact Hn | exact Hmax | exact H]. }
  assert (Hreturned : forall c cb' cp',
            TwoAxisPolygonClip sourcePolygon
              (Z.of_nat (length sourcePolygon)) r
              clipBuffer clippedPolygon = Ok (c, cb', cp') ->
            c < 3 /\ cp' = clippedPolygon /\
            (beyond_x r sourcePolygon -> c = 0)).
  { intros c cb' cp' Hrun.
    assert (Hc0 : beyond_x r sourcePolygon ->
                  c = 0 /\ cp' = clippedPolygon).
    { intros H. rewrite (Hx H) in Hrun. injection Hrun as <- _ <-.
      split; reflexivity. }
    assert (Hbx : beyond_x r sourcePolygon ->
                  c < 3 /\ cp' = clippedPolygon /\
                  (beyond_x r sourcePolygon -> c = 0)).
    { intros H. destruct (Hc0 H) as [-> ->].
      split; [lia|]. split; reflexivity. }
    destruct Hout as [H|Hy]; [exact (Hbx H)|].
    destruct Hpre as [H|[Hlr Hint]]; [exact (Hbx H)|].
    pose proof Hrun as Hrun'.
    rewrite clip_after_x_pass in Hrun'.
    apply bind_Ok in Hrun'. destruct Hrun' as (s & Hs & _).
    destruct (outside_y_invisible sourcePolygon _ r clipBuffer
                clippedPolygon s Hlr Hint Hy Hs) as (c' & Hrun' & Hc').
    rewrite Hrun in Hrun'. injection Hrun' as -> _ ->.
    split; [exact Hc'|]. split; [reflexivity|].
    intros H. exact (proj1 (Hc0 H)). }
  split; [exact Hreturned|].
  intros Hdef.
  assert (Hbx : beyond_x r sourcePolygon ->
                exists c cb',
                  TwoAxisPolygonClip sourcePolygon
                    (Z.of_nat (length sourcePolygon)) r
                    clipBuffer clippedPolygon
                    = Ok (c, cb', clippedPolygon) /\
                  c < 3 /\ (beyond_x r sourcePolygon -> c = 0)).
  { intros H. exists 0, clipBuffer. split; [exact (Hx H)|].
    split; [lia | reflexivity]. }
  destruct Hout as [H|Hy]; [exact (Hbx H)|].
  destruct Hpre as [H|[Hlr Hint]]; [exact (Hbx H)|].
  assert (Hnf : no_fault (x_pass_of_call sourcePolygon
                            (Z.of_nat (length sourcePolygon)) r clipBuffer)).
  { destruct Hdef as [H|[H|H]].
    - destruct (Hbx H) as (c & cb' & Hrun & _).
      rewrite clip_after_x_pass in Hrun.
      apply bind_Ok in Hrun. destruct Hrun as (s & Hs & _).
      exists s. exact Hs.
    - exact H.
    - exact (x_pass_defined sourcePolygon r clipBuffer Hn H). }
  destruct Hnf as [s Hs].
  destruct (outside_y_invisible sourcePolygon _ r clipBuffer
              clippedPolygon s Hlr Hint Hy Hs) as (c & Hrun & Hc).
  exists c, (dest s). split; [exact Hrun|]. split; [exact Hc|].
  intros H. exact (proj2 (proj2 (Hreturned _ _ _ Hrun)) H).
Qed.

Lemma entirely_outside_invisible_witness :
  exists c cb',
    TwoAxisPolygonClip high_triangle (Z.of_nat (length high_triangle))
      low_region (blank 6) (blank 6) = Ok (c, cb', blank 6) /\
    c < 3 /\
    (beyond_x low_region high_triangle -> c = 0).
Proof.
  refine (proj2 (entirely_outside_invisible high_triangle low_region
                   (blank 6) (blank 6) _ _ _ _) _).
  - simpl. lia.
  - simpl. lia.
  - right. left. unfold high_triangle. repeat constructor; simpl; lia.
  - right. split; [simpl; lia|].
    unfold high_triangle, int16_range. repeat constructor; simpl; lia.
  - right. right. exact high_triangle_preconditions.
Defined.

(** ** Divisions *)

(** C5. For a region with [left <= right] and [top <= bottom], no call
    divides by zero, whatever the polygon, the count and the buffers: each
    of the eight interpolations runs only with its two ends strictly apart
    on the axis of the pass.  A division by zero is the only source of the
    fault [DivideByZero]. *)
Theorem no_division_by_zero (sourcePolygon : list vertex) (nVertices : Z)
    (r : clipRect) (clipBuffer clippedPolygon : list vertex) :
  valid_region r ->
  TwoAxisPolygonClip sourcePolygon nVertices r clipBuffer clippedPolygon
    <> Fault DivideByZero.
Proof.
  intros [Hlr Htb]. unfold TwoAxisPolygonClip, x_pass, y_pass. cbv zeta.
  apply bind_not_fault; [apply load_not_div | intros v0 _].
  apply bind_not_fault.
  { apply while_dec_not_fault. intros i s. apply x_edge_not_div. exact Hlr. }
  intros s _. destruct (pIndex s <? 3); [discriminate|].
  apply bind_not_fault; [apply load_not_div | intros w0 _].
  apply bind_not_fault; [| discriminate].
  apply while_dec_not_fault. intros i a. apply y_edge_not_div. exact Htb.
Qed.

Lemma no_division_by_zero_witness :
  TwoAxisPolygonClip [mkVertex 7 3; mkVertex 7 3; mkVertex (-2) 4] 3
    square_region (blank 6) (blank 6) <> Fault DivideByZero.
Proof.
  apply (no_division_by_zero [mkVertex 7 3; mkVertex 7 3; mkVertex (-2) 4]
           3 square_region (blank 6) (blank 6)).
  unfold valid_region. simpl. lia.
Defined.

(** The invariant of the region is needed: with [left > right] the second
    interpolation of an edge can divide by zero. *)
Example inverted_region_divides_by_zero :
  TwoAxisPolygonClip [mkVertex 12 0; mkVertex 5 3] 2 (mkClipRect 10 5 0 10)
    (blank 4) (blank 4) = Fault DivideByZero.
Proof. reflexivity. Qed.

(** ** Early exit *)

(** C7. When the X pass leaves fewer than 3 vertices, the call returns that
    count at once: the Y pass does not run and the output buffer is the one
    the caller passed, unchanged. *)
Theorem invisible_after_x_pass (sourcePolygon : list vertex) (nVertices : Z)
    (r : clipRect) (clipBuffer clippedPolygon : list vertex)
    (v0 : vertex) (s : pass_state) :
  load sourcePolygon 0 = Ok v0 ->
  x_pass (clipLeft r) (clipRight r) sourcePolygon (iterations nVertices)
    (mkState (x v0) (y v0) 0 clipBuffer) = Ok s ->
  pIndex s < 3 ->
  TwoAxisPolygonClip sourcePolygon nVertices r clipBuffer clippedPolygon
    = Ok (pIndex s, dest s, clippedPolygon).
Proof.
  intros Hload Hx Hlt. unfold TwoAxisPolygonClip. cbv zeta.
  rewrite Hload, bind_Ok_l, Hx, bind_Ok_l.
  destruct (Z.ltb_spec (pIndex s) 3) as [_|Hge]; [reflexivity | lia].
Qed.

Lemma invisible_after_x_pass_witness :
  TwoAxisPolygonClip [mkVertex 6 1; mkVertex 8 3] 2
    square_region (blank 4) touching_triangle
    = Ok (2, [mkVertex 6 1; mkVertex 8 3; mkVertex 0 0; mkVertex 0 0],
          touching_triangle).
Proof.
  apply (invisible_after_x_pass [mkVertex 6 1; mkVertex 8 3] 2
           square_region (blank 4) touching_triangle (mkVertex 6 1)
           (mkState 6 1 2
              [mkVertex 6 1; mkVertex 8 3; mkVertex 0 0; mkVertex 0 0])).
  - reflexivity.
  - reflexivity.
  - simpl. lia.
Defined.

(** ** Clipping again *)

(** C8. Clipping is idempotent.  When a call on any polygon, convex or
    not, against a valid region returns [m >= 3] with the output [Q] (the
    first [m] entries of its output buffer), a second call on [Q] against
    the same region, with buffers of at least [m] entries, returns [m] and
    writes the vertices of [Q] in the same order. *)
Theorem reclipping_is_identity (sourcePolygon : list vertex) (nVertices : Z)
    (r : clipRect) (clipBuffer clippedPolygon : list vertex)
    (m : Z) (cb' cp' : list vertex) (clipBuffer2 clippedPolygon2 : list vertex) :
  valid_region r -> int16_region r ->
  TwoAxisPolygonClip sourcePolygon nVertices r clipBuffer clippedPolygon
    = Ok (m, cb', cp') ->
  3 <= m ->
  m <= Z.of_nat (length clipBuffer2) ->
  m <= Z.of_nat (length clippedPolygon2) ->
  exists cb2 cp2,
    TwoAxisPolygonClip (take (Z.to_nat m) cp') m r
      clipBuffer2 clippedPolygon2 = Ok (m, cb2, cp2) /\
    take (Z.to_nat m) cp2 = take (Z.to_nat m) cp'.
Proof.
  intros Hvalid Hwf Hrun Hm Hcb Hcp.
  destruct (clip_output_inside _ _ _ _ _ _ _ _ Hvalid Hwf Hrun Hm)
    as (Hmax & Hlen & Hin).
  destruct (clip_copy (take (Z.to_nat m) cp') (Z.to_nat m) r
              clipBuffer2 clippedPolygon2)
    as (cb2 & cp2 & Hrun2 & Htake & _); try lia.
  { rewrite length_take. lia. }
  { rewrite take_take, Nat.min_id. exact Hin. }
  rewrite Z2Nat.id in Hrun2 by lia.
  exists cb2, cp2. split; [exact Hrun2|].
  rewrite Htake, take_take, Nat.min_id. reflexivity.
Qed.

Lemma reclipping_is_identity_witness :
  exists cb2 cp2,
    TwoAxisPolygonClip
      (take (Z.to_nat 4)
         [mkVertex 5 10; mkVertex 5 0; mkVertex 10 0; mkVertex 10 10;
          mkVertex 0 0; mkVertex 0 0; mkVertex 0 0; mkVertex 0 0])
      4 square_region (blank 8) (blank 8) = Ok (4, cb2, cp2) /\
    take (Z.to_nat 4) cp2 =
      take (Z.to_nat 4)
        [mkVertex 5 10; mkVertex 5 0; mkVertex 10 0; mkVertex 10 10;
         mkVertex 0 0; mkVertex 0 0; mkVertex 0 0; mkVertex 0 0].
Proof.
  apply (reclipping_is_identity square 4 square_region (blank 8) (blank 8) 4
           [mkVertex 5 10; mkVertex 10 10; mkVertex 10 0; mkVertex 5 0;
            mkVertex 0 0; mkVertex 0 0; mkVertex 0 0; mkVertex 0 0]
           [mkVertex 5 10; mkVertex 5 0; mkVertex 10 0; mkVertex 10 10;
            mkVertex 0 0; mkVertex 0 0; mkVertex 0 0; mkVertex 0 0]
           (blank 8) (blank 8)).
  - unfold valid_region. simpl. lia.
  - unfold int16_region, int16_range. simpl. lia.
  - reflexivity.
  - lia.
  - simpl. lia.
  - simpl. lia.
Defined.

(** ** The start of the next edge *)

(** C9, as stated, fails.  The claim reads: after an edge that the cheap
    bounds test did not reject, the next edge starts at the endpoint as
    clipped.  Here it is refuted for edges whose end is clipped at the left
    bound, where the endpoint as clipped is the second vertex the edge
    writes: the edge from (5,0) to (-5,10), against left=0 and right=10,
    writes (5,0) and (0,5), and the next edge starts at (-5,10). *)
Lemma next_start_is_not_the_clipped_endpoint :
  ~ (forall (clip_left clip_right : Z) (src : list vertex) (i : Z)
            (s s' : pass_state) (v2 e : vertex),
       load src i = Ok v2 ->
       x_rejected clip_left clip_right (rx1 s) (x v2) = false ->
       x_edge clip_left clip_right src i s = Ok s' ->
       x v2 < clip_left ->
       dest s' !! Z.to_nat (pIndex s + 1) = Some e ->
       rx1 s' = x e /\ ry1 s' = y e).
Proof.
  intros H.
  specialize (H 0 10 [mkVertex (-5) 10] 0 (mkState 5 0 0 (blank 2))
                (mkState (-5) 10 2 [mkVertex 5 0; mkVertex 0 5])
                (mkVertex (-5) 10) (mkVertex 0 5)
                eq_refl eq_refl eq_refl ltac:(simpl; lia) eq_refl).
  simpl in H. lia.
Qed.

(** C9, amended.  In both passes every edge that runs to its end, rejected
    by the cheap bounds test or not, clipped or not, leaves as the start of
    the next edge the vertex it read from the array being clipped: the
    endpoint as it was before any clipping. *)
Theorem next_start_is_the_unclipped_endpoint (lo hi : Z) (a : list vertex)
    (i : Z) (s s' : pass_state) :
  x_edge lo hi a i s = Ok s' \/ y_edge lo hi a i s = Ok s' ->
  exists v2, load a i = Ok v2 /\ rx1 s' = x v2 /\ ry1 s' = y v2.
Proof.
  intros [H|H].
  - exact (x_edge_start _ _ _ _ _ _ H).
  - exact (y_edge_start _ _ _ _ _ _ H).
Qed.

Lemma next_start_is_the_unclipped_endpoint_witness :
  exists v2, load [mkVertex (-5) 10] 0 = Ok v2 /\
             rx1 (mkState (-5) 10 2 [mkVertex 5 0; mkVertex 0 5]) = x v2 /\
             ry1 (mkState (-5) 10 2 [mkVertex 5 0; mkVertex 0 5]) = y v2.
Proof.
  apply (next_start_is_the_unclipped_endpoint 0 10 [mkVertex (-5) 10] 0
           (mkState 5 0 0 (blank 2))
           (mkState (-5) 10 2 [mkVertex 5 0; mkVertex 0 5])).
  left. reflexivity.
Defined.

(** ** Shared edges *)

(** C4, at its failing input.  The two triangles share the edge between
    (11,0) and (-5,3), which crosses both X bounds of the region; the upper
    one walks it from (11,0) to (-5,3), the lower one the other way.  Each
    is clipped on its own against the same region: on the left bound the
    first puts the shared edge at (0,2), the second at (0,3). *)
Theorem shared_edge_boundary_vertices_differ :
  proper_triangle upper_triangle = true /\
  proper_triangle lower_triangle = true /\
  exists cb1 cb2 q1 q2,
    TwoAxisPolygonClip upper_triangle 3 strip (blank 6) (blank 6)
      = Ok (5, cb1, q1) /\
    TwoAxisPolygonClip lower_triangle 3 strip (blank 6) (blank 6)
      = Ok (5, cb2, q2) /\
    take 5 q1 = [mkVertex 10 0; mkVertex 10 1; mkVertex 3 10;
                 mkVertex 0 7; mkVertex 0 2] /\
    take 5 q2 = [mkVertex 0 3; mkVertex 0 (-5); mkVertex 3 (-10);
                 mkVertex 10 (-1); mkVertex 10 0] /\
    vertex_in (mkVertex 0 2) (take 5 q1) = true /\
    vertex_in (mkVertex 0 2) (take 5 q2) = false /\
    vertex_in (mkVertex 0 3) (take 5 q2) = true /\
    vertex_in (mkVertex 0 3) (take 5 q1) = false.
Proof.
  split; [reflexivity|]. split; [reflexivity|].
  exists [mkVertex 10 0; mkVertex 0 2; mkVertex 0 7; mkVertex 3 10;
          mkVertex 10 1; mkVertex 0 0],
         [mkVertex 0 3; mkVertex 10 0; mkVertex 10 (-1); mkVertex 3 (-10);
          mkVertex 0 (-5); mkVertex 0 0],
         [mkVertex 10 0; mkVertex 10 1; mkVertex 3 10; mkVertex 0 7;
          mkVertex 0 2; mkVertex 0 0],
         [mkVertex 0 3; mkVertex 0 (-5); mkVertex 3 (-10); mkVertex 10 (-1);
          mkVertex 10 0; mkVertex 0 0].
  repeat split; vm_compute; reflexivity.
Qed.

(** ** Buffer sizes *)

(** C6, at its failing input.  The triangle (10,-6),(31,15),(-32,36) cuts
    three corners off the region [0,20] x [0,20]: the clipped polygon has 7
    vertices.  With both buffers of [2 * 3] entries the Y pass writes past
    the end of the output buffer; with 7 entries there the call returns
    the count 7. *)
Theorem wide_triangle_needs_seven_entries :
  proper_triangle wide_triangle = true /\
  TwoAxisPolygonClip wide_triangle 3 box (blank 6) (blank 6)
    = Fault OutOfBounds /\
  TwoAxisPolygonClip wide_triangle 3 box (blank 6) (blank 7)
    = Ok (7,
          [mkVertex 10 (-6); mkVertex 0 4; mkVertex 0 26; mkVertex 20 18;
           mkVertex 20 4; mkVertex 0 0],
          [mkVertex 16 0; mkVertex 20 4; mkVertex 20 18; mkVertex 15 20;
           mkVertex 0 20; mkVertex 0 4; mkVertex 4 0]).
Proof. repeat split; vm_compute; reflexivity. Qed.

(** ** Zero-length edges *)

(** C10, at its failing input.  The triangle (10,10),(0,5),(5,0) has the
    vertex (5,0) on the left bound of the region.  The result has 4
    vertices, and (5,0) is there twice in a row. *)
Theorem touching_triangle_repeats_vertex :
  proper_triangle touching_triangle = true /\
  TwoAxisPolygonClip touching_triangle 3 square_region (blank 6) (blank 6)
    = Ok (4,
          [mkVertex 10 10; mkVertex 5 0; mkVertex 5 0; mkVertex 5 7;
           mkVertex 0 0; mkVertex 0 0],
          [mkVertex 10 10; mkVertex 5 7; mkVertex 5 0; mkVertex 5 0;
           mkVertex 0 0; mkVertex 0 0]) /\
  has_zero_length_edge
    [mkVertex 10 10; mkVertex 5 7; mkVertex 5 0; mkVertex 5 0] = true.
Proof. repeat split; vm_compute; reflexivity. Qed.

(** * Further properties of the function *)

(** ** Invariants of the destination of a pass *)

Ltac edge_chain Hemit Hset :=
  repeat match goal with
  | H : set_start _ _ _ = ?t |- _ => subst t
  | H : ?t = ?t' :> pass_state |- _ => subst t'
  end;
  repeat first
    [ assumption
    | apply Hset
    | match goal with
      | H : emits ?a ?v ?b |- _ ?b => apply (Hemit a v b H)
      end ].

(** An edge changes the state of its pass by writes at [pIndex] and by
    moving the start point only: what both preserve, the edge preserves. *)
Lemma x_edge_preserves (Inv : pass_state -> Prop) (clip_left clip_right : Z)
    (sourcePolygon : list vertex) (i : Z) (s s' : pass_state) :
  (forall a v b, emits a v b -> Inv a -> Inv b) ->
  (forall a nx ny, Inv a -> Inv (set_start a nx ny)) ->
  x_edge clip_left clip_right sourcePolygon i s = Ok s' ->
  Inv s -> Inv s'.
Proof.
  intros Hemit Hset Hrun Hs. unfold x_edge in Hrun.
  apply bind_Ok in Hrun. destruct Hrun as (v2 & _ & Hrun). simpl in Hrun.
  inv_run; edge_chain Hemit Hset.
Qed.

Lemma y_edge_preserves (Inv : pass_state -> Prop) (clip_top clip_bottom : Z)
    (clipBuffer : list vertex) (i : Z) (s s' : pass_state) :
  (forall a v b, emits a v b -> Inv a -> Inv b) ->
  (forall a nx ny, Inv a -> Inv (set_start a nx ny)) ->
  y_edge clip_top clip_bottom clipBuffer i s = Ok s' ->
  Inv s -> Inv s'.
Proof.
  intros Hemit Hset Hrun Hs. unfold y_edge in Hrun.
  apply bind_Ok in Hrun. destruct Hrun as (v2 & _ & Hrun). simpl in Hrun.
  inv_run; edge_chain Hemit Hset.
Qed.

Lemma while_dec_preserves (Inv : pass_state -> Prop)
    (body : Z -> pass_state -> result pass_state) :
  (forall i s s', body i s = Ok s' -> Inv s -> Inv s') ->
  forall k s s', while_dec body k s = Ok s' -> Inv s -> Inv s'.
Proof.
  intros Hbody k s s' Hrun Hs.
  refine (while_dec_invariant Inv body k _ s s' Hs Hrun).
  intros k' a b _ Ha Hstep. exact (Hbody _ _ _ Hstep Ha).
Qed.

Lemma untouched_from_init (a b : Z) (d0 : list vertex) :
  untouched_from d0 (mkState a b 0 d0).
Proof.
  unfold untouched_from, int16_range. simpl.
  split; [lia|]. split; reflexivity.
Qed.

Lemma untouched_from_emits (d0 : list vertex) (a : pass_state) (v : vertex)
    (b : pass_state) :
  emits a v b -> untouched_from d0 a -> untouched_from d0 b.
Proof.
  intros [Hp ->] (Hr & Hlen & Hdrop). unfold untouched_from. simpl.
  split; [apply to_int16_range|].
  split; [rewrite length_insert; exact Hlen|].
  intros Hnext. unfold int16_range in Hr.
  assert (Hid : to_int16 (pIndex a + 1) = pIndex a + 1).
  { destruct (Z.eq_dec (pIndex a) 32767) as [E|E].
    - rewrite E in Hnext.
      change (to_int16 (32767 + 1)) with (-32768) in Hnext. lia.
    - apply to_int16_id. unfold int16_range. lia. }
  rewrite Hid.
  replace (Z.to_nat (pIndex a + 1))
    with (Z.to_nat (pIndex a) + 1)%nat by lia.
  rewrite drop_insert_lt by lia.
  rewrite <- !drop_drop.
  rewrite Hdrop by lia. reflexivity.
Qed.

Lemma untouched_from_set_start (d0 : list vertex) (a : pass_state)
    (nx ny : Z) :
  untouched_from d0 a -> untouched_from d0 (set_start a nx ny).
Proof. intros H. exact H. Qed.

(** ** The two passes are one pass on exchanged axes *)

Lemma emit_x_then_y_spec (s : pass_state) (a b : Z) :
  emit_x_then_y s a b =
    if (0 <=? pIndex s) && (pIndex s <? Z.of_nat (length (dest s)))
    then Ok (mkState (rx1 s) (ry1 s) (to_int16 (pIndex s + 1))
               (<[Z.to_nat (pIndex s) := mkVertex a b]> (dest s)))
    else Fault OutOfBounds.
Proof.
  destruct ((0 <=? pIndex s) && (pIndex s <? Z.of_nat (length (dest s))))
    eqn:E.
  - apply emit_x_then_y_Ok. split; [lia | reflexivity].
  - unfold emit_x_then_y, store_x.
    destruct (Z.ltb_spec (pIndex s) 0); [reflexivity|].
    destruct (dest s !! Z.to_nat (pIndex s)) eqn:L; [| reflexivity].
    apply lookup_lt_Some in L. lia.
Qed.

Lemma emit_y_then_x_spec (s : pass_state) (a b : Z) :
  emit_y_then_x s a b =
    if (0 <=? pIndex s) && (pIndex s <? Z.of_nat (length (dest s)))
    then Ok (mkState (rx1 s) (ry1 s) (to_int16 (pIndex s + 1))
               (<[Z.to_nat (pIndex s) := mkVertex a b]> (dest s)))
    else Fault OutOfBounds.
Proof.
  destruct ((0 <=? pIndex s) && (pIndex s <? Z.of_nat (length (dest s))))
    eqn:E.
  - apply emit_y_then_x_Ok. split; [lia | reflexivity].
  - unfold emit_y_then_x, store_y.
    destruct (Z.ltb_spec (pIndex s) 0); [reflexivity|].
    destruct (dest s !! Z.to_nat (pIndex s)) eqn:L; [| reflexivity].
    apply lookup_lt_Some in L. lia.
Qed.

Lemma swap_swap (v : vertex) : swap (swap v) = v.
Proof. destruct v. reflexivity. Qed.

Lemma swap_swap_list (l : list vertex) : swap <$> (swap <$> l) = l.
Proof.
  induction l as [|v l IH]; [reflexivity|].
  cbn [fmap list_fmap]. cbn [fmap list_fmap] in IH.
  rewrite swap_swap, IH. reflexivity.
Qed.

Lemma swap_state_swap_state (s : pass_state) :
  swap_state (swap_state s) = s.
Proof.
  destruct s as [a b p d]. unfold swap_state. simpl.
  rewrite swap_swap_list. reflexivity.
Qed.

Lemma load_swap (a : list vertex) (i : Z) :
  load (swap <$> a) i = result_map swap (load a i).
Proof.
  unfold load. destruct (i <? 0); [reflexivity|].
  rewrite list_lookup_fmap. destruct (a !! Z.to_nat i); reflexivity.
Qed.

Ltac swap_step :=
  rewrite ?length_fmap, ?length_insert;
  match goal with
  | |- context [ emit_x_then_y ?s ?a ?b ] =>
      rewrite (emit_x_then_y_spec s a b)
  | |- context [ emit_y_then_x ?s ?a ?b ] =>
      rewrite (emit_y_then_x_spec s a b)
  | |- context [ if ?c then _ else _ ] => destruct c eqn:?
  | |- context [ lerp ?a ?b ?c ?d ?e ] => destruct (lerp a b c d e) eqn:?
  end; simpl.

Lemma y_edge_is_x_edge_swapped (lo hi : Z) (a : list vertex) (i : Z)
    (s : pass_state) :
  y_edge lo hi a i s =
    result_map swap_state (x_edge lo hi (swap <$> a) i (swap_state s)).
Proof.
  unfold y_edge, x_edge. rewrite load_swap.
  destruct (load a i) as [v2|f]; [| reflexivity]. simpl.
  repeat swap_step.
  all: try reflexivity.
  all: rewrite ?length_insert, ?length_fmap in *; try congruence.
  all: unfold set_start, swap_state; simpl.
  all: rewrite ?list_fmap_insert, ?swap_swap_list; reflexivity.
Qed.

Lemma result_map_bind {A B : Type} (f : A -> A) (m : result A)
    (k k' : A -> result B) (g : B -> B) :
  (forall a, k (f a) = result_map g (k' a)) ->
  (result_map f m ≫= k) = result_map g (m ≫= k').
Proof. intros H. destruct m as [a|e]; simpl; [apply H | reflexivity]. Qed.

Lemma y_pass_is_x_pass_swapped (lo hi : Z) (a : list vertex) (k : nat) :
  forall s,
  y_pass lo hi a k s =
    result_map swap_state (x_pass lo hi (swap <$> a) k (swap_state s)).
Proof.
  unfold y_pass, x_pass.
  induction k as [|k IH]; intros s.
  { simpl. rewrite swap_state_swap_state. reflexivity. }
  cbn [while_dec]. rewrite y_edge_is_x_edge_swapped.
  apply result_map_bind. intros s1.
  rewrite IH, swap_state_swap_state. reflexivity.
Qed.


(** ** Vertices written stay in the bounding box of the source *)

Lemma x_edge_emitted_boxed (P : vertex -> Prop) (clip_left clip_right : Z)
    (sourcePolygon : list vertex) (nVertices : Z) (s s' : pass_state)
    (v2 : vertex) :
  clip_left <= clip_right ->
  load sourcePolygon nVertices = Ok v2 ->
  x_edge clip_left clip_right sourcePolygon nVertices s = Ok s' ->
  (forall e, boxed_by (mkVertex (rx1 s) (ry1 s)) v2 e -> P e) ->
  emitted_all P s -> emitted_all P s'.
Proof.
  intros Hlr Hload Hrun HP Hall. unfold x_edge in Hrun.
  rewrite Hload in Hrun. simpl in Hrun.
  inv_run; run_starts; emitted_chain.
  all: apply HP; intros xlo xhi ylo yhi Hxl Hxh Hyl Hyh [Hax Hay] [Hbx Hby].
  all: unfold in_box, in_x, in_y in *; simpl in *.
  all: lerp_bounds ylo yhi; lia.
Qed.

Lemma y_edge_emitted_boxed (P : vertex -> Prop) (clip_top clip_bottom : Z)
    (clipBuffer : list vertex) (nVertices : Z) (s s' : pass_state)
    (v2 : vertex) :
  clip_top <= clip_bottom ->
  load clipBuffer nVertices = Ok v2 ->
  y_edge clip_top clip_bottom clipBuffer nVertices s = Ok s' ->
  (forall e, boxed_by (mkVertex (rx1 s) (ry1 s)) v2 e -> P e) ->
  emitted_all P s -> emitted_all P s'.
Proof.
  intros Htb Hload Hrun HP Hall. unfold y_edge in Hrun.
  rewrite Hload in Hrun. simpl in Hrun.
  inv_run; run_starts; emitted_chain.
  all: apply HP; intros xlo xhi ylo yhi Hxl Hxh Hyl Hyh [Hax Hay] [Hbx Hby].
  all: unfold in_box, in_x, in_y in *; simpl in *.
  all: lerp_bounds xlo xhi; lia.
Qed.

Section Boxed.

Variables xlo xhi ylo yhi : Z.
Hypothesis xlo_int16 : int16_range xlo.
Hypothesis xhi_int16 : int16_range xhi.
Hypothesis ylo_int16 : int16_range ylo.
Hypothesis yhi_int16 : int16_range yhi.

(** A pass that reads vertices of the box only, from a start point in the
    box, writes vertices of the box only. *)
Lemma x_pass_boxed (clip_left clip_right : Z) (sourcePolygon : list vertex)
    (k : nat) (s s' : pass_state) :
  clip_left <= clip_right ->
  (forall k' v2, (k' < k)%nat ->
     load sourcePolygon (to_int16 (Z.of_nat k')) = Ok v2 ->
     in_box xlo xhi ylo yhi v2) ->
  x_pass clip_left clip_right sourcePolygon k s = Ok s' ->
  boxed_state xlo xhi ylo yhi s -> boxed_state xlo xhi ylo yhi s'.
Proof.
  intros Hlr Hsrc Hrun Hs. unfold x_pass in Hrun.
  refine (while_dec_invariant (boxed_state xlo xhi ylo yhi) _ k _ s s'
            Hs Hrun).
  intros k' a b Hlt [Hstart Ha] Hstep.
  destruct (x_edge_start _ _ _ _ _ _ Hstep) as (v2 & Hload & Hx & Hy).
  pose proof (Hsrc k' v2 Hlt Hload) as Hv2.
  split.
  - rewrite Hx, Hy, vertex_eta. exact Hv2.
  - apply (x_edge_emitted_boxed _ _ _ _ _ _ _ _ Hlr Hload Hstep); [| exact Ha].
    intros e He. apply He; assumption.
Qed.

Lemma y_pass_boxed (clip_top clip_bottom : Z) (clipBuffer : list vertex)
    (k : nat) (s s' : pass_state) :
  clip_top <= clip_bottom ->
  (forall k' v2, (k' < k)%nat ->
     load clipBuffer (to_int16 (Z.of_nat k')) = Ok v2 ->
     in_box xlo xhi ylo yhi v2) ->
  y_pass clip_top clip_bottom clipBuffer k s = Ok s' ->
  boxed_state xlo xhi ylo yhi s -> boxed_state xlo xhi ylo yhi s'.
Proof.
  intros Htb Hsrc Hrun Hs. unfold y_pass in Hrun.
  refine (while_dec_invariant (boxed_state xlo xhi ylo yhi) _ k _ s s'
            Hs Hrun).
  intros k' a b Hlt [Hstart Ha] Hstep.
  destruct (y_edge_start _ _ _ _ _ _ Hstep) as (v2 & Hload & Hx & Hy).
  pose proof (Hsrc k' v2 Hlt Hload) as Hv2.
  split.
  - rewrite Hx, Hy, vertex_eta. exact Hv2.
  - apply (y_edge_emitted_boxed _ _ _ _ _ _ _ _ Htb Hload Hstep); [| exact Ha].
    intros e He. apply He; assumption.
Qed.

Lemma load_Forall (P : vertex -> Prop) (a : list vertex) (i : Z)
    (v : vertex) :
  Forall P a -> load a i = Ok v -> P v.
Proof.
  intros Hall [_ Hv]%load_Ok. rewrite Forall_lookup in Hall.
  exact (Hall _ _ Hv).
Qed.

(** A call on a polygon of the box that returns a visible result has
    written, below the count, vertices of the box only. *)
Lemma clip_output_boxed (sourcePolygon : list vertex) (nVertices : Z)
    (r : clipRect) (clipBuffer clippedPolygon : list vertex)
    (c : Z) (cb' cp' : list vertex) :
  valid_region r ->
  Forall (in_box xlo xhi ylo yhi) sourcePolygon ->
  TwoAxisPolygonClip sourcePolygon nVertices r clipBuffer clippedPolygon
    = Ok (c, cb', cp') ->
  3 <= c ->
  Forall (in_box xlo xhi ylo yhi) (take (Z.to_nat c) cp').
Proof.
  intros [Hlr Htb] Hsrc Hrun Hc. unfold TwoAxisPolygonClip in Hrun.
  cbv zeta in Hrun.
  apply bind_Ok in Hrun. destruct Hrun as (v0 & Hv0 & Hrun).
  apply bind_Ok in Hrun. destruct Hrun as (s & Hx & Hrun).
  apply x_pass_boxed in Hx; try assumption.
  2:{ intros k' v2 _ Hload. exact (load_Forall _ _ _ _ Hsrc Hload). }
  2:{ split; [| apply emitted_all_init]. simpl. rewrite vertex_eta.
      exact (load_Forall _ _ _ _ Hsrc Hv0). }
  destruct Hx as [_ Hx].
  destruct (Z.ltb_spec (pIndex s) 3) as [Hlt|Hge].
  { injection Hrun as <- _ _. lia. }
  apply bind_Ok in Hrun. destruct Hrun as (w0 & Hw0 & Hrun).
  apply bind_Ok in Hrun. destruct Hrun as (s' & Hy & Hrun).
  injection Hrun as <- _ <-.
  pose proof Hx as (Hrange & Hlen & Hall). unfold int16_range in Hrange.
  unfold iterations in Hy. rewrite Z.mod_small in Hy by lia.
  apply y_pass_boxed in Hy; try assumption.
  - destruct Hy as [_ (_ & _ & Hy)]. exact Hy.
  - intros k' v2 Hk Hload.
    rewrite to_int16_id in Hload by (unfold int16_range; lia).
    apply (emitted_all_lookup _ _ _ _ Hx Hload). lia.
  - split; [| apply emitted_all_init]. simpl. rewrite vertex_eta.
    apply (emitted_all_lookup _ _ _ _ Hx Hw0). lia.
Qed.

End Boxed.

(** ** Calls that are defined *)

Lemma safe_swap (v : vertex) : safe_vertex v -> safe_vertex (swap v).
Proof. intros [Hx Hy]. split; assumption. Qed.

(** The Y pass over [k] safe vertices, into an array with room for two
    vertices per edge, runs to its end. *)
Lemma y_pass_total (clip_top clip_bottom : Z) (clipBuffer : list vertex)
    (k : nat) (w0 : vertex) (clippedPolygon : list vertex) :
  clip_top <= clip_bottom ->
  (k <= length clipBuffer)%nat ->
  Forall safe_vertex (take k clipBuffer) ->
  safe_vertex w0 ->
  2 * Z.of_nat k <= Z.of_nat (length clippedPolygon) ->
  2 * Z.of_nat k <= 32767 ->
  exists s',
    y_pass clip_top clip_bottom clipBuffer k
      (mkState (x w0) (y w0) 0 clippedPolygon) = Ok s' /\
    0 <= pIndex s' <= 2 * Z.of_nat k /\
    length (dest s') = length clippedPolygon.
Proof.
  intros Htb Hk Hsafe Hw0 Hcap Hmax.
  assert (Hlo : int16_range (-23170)) by (unfold int16_range; lia).
  assert (Hhi : int16_range 23170) by (unfold int16_range; lia).
  destruct (x_pass_total clip_top clip_bottom (swap <$> clipBuffer)
              (-23170) 23170 k Htb Hlo Hhi)
    with (s := swap_state (mkState (x w0) (y w0) 0 clippedPolygon))
    as (s' & Hrun & _ & Hp & Hlen).
  - rewrite length_fmap. exact Hk.
  - rewrite <- fmap_take. apply Forall_fmap.
    eapply Forall_impl; [exact Hsafe | intros v Hv; apply safe_swap, Hv].
  - rewrite <- fmap_take. apply Forall_fmap.
    eapply Forall_impl; [exact Hsafe|].
    intros v [Hv _]. exact Hv.
  - simpl. apply (safe_swap w0 Hw0).
  - simpl. destruct Hw0 as [Hv _]. exact Hv.
  - apply emitted_all_init.
  - simpl. lia.
  - simpl. rewrite length_fmap. lia.
  - simpl. lia.
  - exists (swap_state s').
    rewrite y_pass_is_x_pass_swapped, Hrun. simpl in *.
    rewrite length_fmap in *. repeat split; try lia.
Qed.

(** The whole call: for a polygon of safe coordinates, a valid region, a
    scratch buffer of [2 * nVertices] entries and an output buffer of
    [4 * nVertices] entries, every step is defined. *)
Lemma clip_total (sourcePolygon : list vertex) (r : clipRect)
    (clipBuffer clippedPolygon : list vertex) :
  (1 <= length sourcePolygon)%nat ->
  4 * Z.of_nat (length sourcePolygon) <= 32767 ->
  valid_region r ->
  Forall safe_vertex sourcePolygon ->
  2 * Z.of_nat (length sourcePolygon) <= Z.of_nat (length clipBuffer) ->
  4 * Z.of_nat (length sourcePolygon) <= Z.of_nat (length clippedPolygon) ->
  no_fault
    (TwoAxisPolygonClip sourcePolygon (Z.of_nat (length sourcePolygon)) r
       clipBuffer clippedPolygon).
Proof.
  intros Hn Hmax [Hlr Htb] Hsafe Hcb Hcp.
  assert (Hlo : int16_range (-23170)) by (unfold int16_range; lia).
  assert (Hhi : int16_range 23170) by (unfold int16_range; lia).
  destruct sourcePolygon as [|v0 rest] eqn:Esrc; [simpl in Hn; lia|].
  rewrite <- Esrc in *.
  assert (Hl0 : load sourcePolygon 0 = Ok v0)
    by (subst; apply load_Ok; split; [lia | reflexivity]).
  assert (Hbox : Forall (in_box (-23170) 23170 (-23170) 23170)
                   sourcePolygon).
  { eapply Forall_impl; [exact Hsafe | intros v Hv; exact Hv]. }
  assert (Hs0 : safe_vertex v0) by exact (load_Forall _ _ _ _ Hsafe Hl0).
  destruct (x_pass_total (clipLeft r) (clipRight r) sourcePolygon
              (-23170) 23170 (length sourcePolygon) Hlr Hlo Hhi)
    with (s := mkState (x v0) (y v0) 0 clipBuffer)
    as (s & Hx & _ & Hp & Hlen); simpl; try lia.
  { rewrite take_ge by lia. exact Hsafe. }
  { rewrite take_ge by lia.
    eapply Forall_impl; [exact Hsafe | intros v [_ Hv]; exact Hv]. }
  { rewrite vertex_eta. exact Hs0. }
  { rewrite vertex_eta. destruct Hs0 as [_ Hv]. exact Hv. }
  { apply emitted_all_init. }
  unfold TwoAxisPolygonClip. cbv zeta.
  rewrite Hl0, bind_Ok_l, iterations_nat, Hx, bind_Ok_l by lia.
  destruct (Z.ltb_spec (pIndex s) 3) as [Hlt|Hge]; [apply no_fault_Ok|].
  simpl in Hp.
  (* what the X pass wrote is safe *)
  pose proof Hx as Hboxed.
  apply (x_pass_boxed (-23170) 23170 (-23170) 23170 Hlo Hhi Hlo Hhi)
    in Hboxed; try assumption.
  2:{ intros k' v2 _ Hload. exact (load_Forall _ _ _ _ Hbox Hload). }
  2:{ split; [| apply emitted_all_init]. simpl. rewrite vertex_eta.
      exact Hs0. }
  destruct Hboxed as [_ Hwritten].
  pose proof Hwritten as (_ & Hle & Hall).
  destruct (lookup_lt_is_Some_2 (dest s) 0 ltac:(lia)) as [w0 Hw0].
  assert (Hl1 : load (dest s) 0 = Ok w0)
    by (apply load_Ok; split; [lia | exact Hw0]).
  rewrite Hl1, bind_Ok_l.
  unfold iterations. rewrite Z.mod_small by lia.
  assert (Hall' : Forall safe_vertex (take (Z.to_nat (pIndex s)) (dest s))).
  { eapply Forall_impl; [exact Hall | intros v Hv; exact Hv]. }
  assert (Hw0s : safe_vertex w0).
  { apply (emitted_all_lookup _ _ _ _ Hwritten Hl1). lia. }
  destruct (y_pass_total (clipTop r) (clipBottom r) (dest s)
              (Z.to_nat (pIndex s)) w0 clippedPolygon)
    as (s' & Hy & _); try assumption; try lia.
  rewrite Hy, bind_Ok_l. apply no_fault_Ok.
Qed.

(** ** Counts and untouched entries *)

Lemma y_edge_progress (clip_top clip_bottom : Z) (clipBuffer : list vertex)
    (i : Z) (s s' : pass_state) :
  y_edge clip_top clip_bottom clipBuffer i s = Ok s' ->
  0 <= pIndex s -> pIndex s + 2 <= 32767 ->
  pIndex s <= pIndex s' <= pIndex s + 2 /\
  length (dest s') = length (dest s).
Proof.
  intros Hrun Hp Hmax. unfold y_edge in Hrun.
  apply bind_Ok in Hrun. destruct Hrun as (v2 & _ & Hrun). simpl in Hrun.
  inv_run; explicit_states; rewrite ?length_insert;
    rewrite ?(to_int16_id (pIndex s + 1)) in * by (unfold int16_range; lia);
    rewrite ?(to_int16_id (pIndex s + 1 + 1)) in *
      by (unfold int16_range; lia);
    (split; [lia | reflexivity]).
Qed.

(** A pass of [k] edges that write at most two vertices each writes at
    most [2 * k] vertices. *)
Lemma while_dec_count (body : Z -> pass_state -> result pass_state) :
  (forall i s s', body i s = Ok s' ->
     0 <= pIndex s -> pIndex s + 2 <= 32767 ->
     pIndex s <= pIndex s' <= pIndex s + 2 /\
     length (dest s') = length (dest s)) ->
  forall k s s', while_dec body k s = Ok s' ->
    0 <= pIndex s -> pIndex s + 2 * Z.of_nat k <= 32767 ->
    pIndex s <= pIndex s' <= pIndex s + 2 * Z.of_nat k.
Proof.
  intros Hbody. induction k as [|k IH]; intros s s' Hrun Hp Hmax.
  - injection Hrun as <-. lia.
  - cbn [while_dec] in Hrun.
    apply bind_Ok in Hrun. destruct Hrun as (s1 & H1 & Hrun).
    destruct (Hbody _ _ _ H1) as [Hp1 _]; try lia.
    specialize (IH s1 s' Hrun). lia.
Qed.

Lemma x_pass_untouched (clip_left clip_right : Z)
    (sourcePolygon : list vertex) (k : nat) (a b : Z) (d0 : list vertex)
    (s' : pass_state) :
  x_pass clip_left clip_right sourcePolygon k (mkState a b 0 d0) = Ok s' ->
  untouched_from d0 s'.
Proof.
  intros Hrun. unfold x_pass in Hrun.
  refine (while_dec_preserves (untouched_from d0) _ _ k _ s' Hrun
            (untouched_from_init a b d0)).
  intros i s t Hstep.
  exact (x_edge_preserves _ _ _ _ _ _ _ (untouched_from_emits d0)
           (untouched_from_set_start d0) Hstep).
Qed.

Lemma y_pass_untouched (clip_top clip_bottom : Z)
    (clipBuffer : list vertex) (k : nat) (a b : Z) (d0 : list vertex)
    (s' : pass_state) :
  y_pass clip_top clip_bottom clipBuffer k (mkState a b 0 d0) = Ok s' ->
  untouched_from d0 s'.
Proof.
  intros Hrun. unfold y_pass in Hrun.
  refine (while_dec_preserves (untouched_from d0) _ _ k _ s' Hrun
            (untouched_from_init a b d0)).
  intros i s t Hstep.
  exact (y_edge_preserves _ _ _ _ _ _ _ (untouched_from_emits d0)
           (untouched_from_set_start d0) Hstep).
Qed.

(** The two passes of a call that returns, one after the other. *)
Lemma clip_Ok (sourcePolygon : list vertex) (nVertices : Z) (r : clipRect)
    (clipBuffer clippedPolygon : list vertex)
    (c : Z) (cb' cp' : list vertex) :
  TwoAxisPolygonClip sourcePolygon nVertices r clipBuffer clippedPolygon
    = Ok (c, cb', cp') ->
  exists v0 s,
    load sourcePolygon 0 = Ok v0 /\
    x_pass (clipLeft r) (clipRight r) sourcePolygon (iterations nVertices)
      (mkState (x v0) (y v0) 0 clipBuffer) = Ok s /\
    cb' = dest s /\
    ((pIndex s < 3 /\ c = pIndex s /\ cp' = clippedPolygon) \/
     (3 <= pIndex s /\
      exists w0 s',
        load (dest s) 0 = Ok w0 /\
        y_pass (clipTop r) (clipBottom r) (dest s) (iterations (pIndex s))
          (mkState (x w0) (y w0) 0 clippedPolygon) = Ok s' /\
        c = pIndex s' /\ cp' = dest s')).
Proof.
  intros Hrun. unfold TwoAxisPolygonClip in Hrun. cbv zeta in Hrun.
  apply bind_Ok in Hrun. destruct Hrun as (v0 & Hv0 & Hrun).
  apply bind_Ok in Hrun. destruct Hrun as (s & Hx & Hrun).
  exists v0, s. split; [exact Hv0|]. split; [exact Hx|].
  destruct (Z.ltb_spec (pIndex s) 3) as [Hlt|Hge].
  - injection Hrun as <- <- <-. split; [reflexivity|]. left. auto.
  - apply bind_Ok in Hrun. destruct Hrun as (w0 & Hw0 & Hrun).
    apply bind_Ok in Hrun. destruct Hrun as (s' & Hy & Hrun).
    injection Hrun as <- <- <-. split; [reflexivity|]. right.
    split; [exact Hge|]. exists w0, s'. auto.
Qed.

(** The number of vertices a call that returns has written. *)
Lemma clip_count (sourcePolygon : list vertex) (nVertices : Z) (r : clipRect)
    (clipBuffer clippedPolygon : list vertex)
    (c : Z) (cb' cp' : list vertex) :
  0 <= nVertices -> 4 * nVertices <= 32767 ->
  TwoAxisPolygonClip sourcePolygon nVertices r clipBuffer clippedPolygon
    = Ok (c, cb', cp') ->
  0 <= c <= 4 * nVertices /\
  drop (Z.to_nat (2 * nVertices)) cb'
    = drop (Z.to_nat (2 * nVertices)) clipBuffer.
Proof.
  intros Hn Hmax Hrun.
  destruct (clip_Ok _ _ _ _ _ _ _ _ Hrun)
    as (v0 & s & _ & Hx & -> & Hrest).
  pose proof (x_pass_untouched _ _ _ _ _ _ _ _ Hx) as (_ & _ & Hdrop).
  unfold x_pass, iterations in Hx. rewrite Z.mod_small in Hx by lia.
  apply (while_dec_count _ (x_edge_progress _ _ _)) in Hx;
    simpl; try lia.
  simpl in Hx. rewrite Z2Nat.id in Hx by lia.
  split.
  - destruct Hrest as [(_ & -> & _) | (Hge & w0 & s' & _ & Hy & -> & _)];
      [lia|].
    unfold y_pass, iterations in Hy. rewrite Z.mod_small in Hy by lia.
    apply (while_dec_count _ (y_edge_progress _ _ _)) in Hy;
      simpl; try lia.
    simpl in Hy. lia.
  - replace (Z.to_nat (2 * nVertices))
      with (Z.to_nat (pIndex s)
            + (Z.to_nat (2 * nVertices) - Z.to_nat (pIndex s)))%nat by lia.
    rewrite <- !drop_drop. rewrite Hdrop by lia. reflexivity.
Qed.

(** ** The properties, entry by entry *)

(** X1. Every vertex of a visible result lies in the clip region, bounds
    included: when a call against a valid region with [int16_t] bounds
    returns a count of at least 3, the count is at most 32767 and at most
    the size of the output buffer, and the entries of the output buffer
    below the count are inside the region. *)
Theorem visible_result_inside_region (sourcePolygon : list vertex)
    (nVertices : Z) (r : clipRect) (clipBuffer clippedPolygon : list vertex)
    (c : Z) (cb' cp' : list vertex) :
  valid_region r -> int16_region r ->
  TwoAxisPolygonClip sourcePolygon nVertices r clipBuffer clippedPolygon
    = Ok (c, cb', cp') ->
  3 <= c ->
  c <= 32767 /\ c <= Z.of_nat (length cp') /\
  Forall (inside r) (take (Z.to_nat c) cp').
Proof.
  intros Hvalid Hwf Hrun Hc.
  exact (clip_output_inside _ _ _ _ _ _ _ _ Hvalid Hwf Hrun Hc).
Qed.

Lemma visible_result_inside_region_witness :
  5 <= 32767 /\
  5 <= Z.of_nat (length [mkVertex 10 0; mkVertex 10 1; mkVertex 3 10;
                         mkVertex 0 7; mkVertex 0 2; mkVertex 0 0]) /\
  Forall (inside strip)
    (take (Z.to_nat 5) [mkVertex 10 0; mkVertex 10 1; mkVertex 3 10;
                        mkVertex 0 7; mkVertex 0 2; mkVertex 0 0]).
Proof.
  apply (visible_result_inside_region upper_triangle 3 strip
           (blank 6) (blank 6) 5
           [mkVertex 10 0; mkVertex 0 2; mkVertex 0 7; mkVertex 3 10;
            mkVertex 10 1; mkVertex 0 0]).
  - unfold valid_region. simpl. lia.
  - unfold int16_region, int16_range. simpl. lia.
  - vm_compute. reflexivity.
  - lia.
Defined.

(** X2. Clipping never leaves the bounding box of the source: when every
    entry of the source array lies in a box with [int16_t] bounds and a
    call against a valid region returns a count of at least 3, the entries
    of the output buffer below the count lie in that box. *)
Theorem visible_result_within_source_box (xlo xhi ylo yhi : Z)
    (sourcePolygon : list vertex) (nVertices : Z) (r : clipRect)
    (clipBuffer clippedPolygon : list vertex)
    (c : Z) (cb' cp' : list vertex) :
  int16_range xlo -> int16_range xhi -> int16_range ylo -> int16_range yhi ->
  valid_region r ->
  Forall (in_box xlo xhi ylo yhi) sourcePolygon ->
  TwoAxisPolygonClip sourcePolygon nVertices r clipBuffer clippedPolygon
    = Ok (c, cb', cp') ->
  3 <= c ->
  Forall (in_box xlo xhi ylo yhi) (take (Z.to_nat c) cp').
Proof.
  intros Hxl Hxh Hyl Hyh Hvalid Hsrc Hrun Hc.
  exact (clip_output_boxed xlo xhi ylo yhi Hxl Hxh Hyl Hyh
           _ _ _ _ _ _ _ _ Hvalid Hsrc Hrun Hc).
Qed.

Lemma visible_result_within_source_box_witness :
  Forall (in_box (-5) 11 0 10)
    (take (Z.to_nat 5) [mkVertex 10 0; mkVertex 10 1; mkVertex 3 10;
                        mkVertex 0 7; mkVertex 0 2; mkVertex 0 0]).
Proof.
  apply (visible_result_within_source_box (-5) 11 0 10 upper_triangle 3
           strip (blank 6) (blank 6) 5
           [mkVertex 10 0; mkVertex 0 2; mkVertex 0 7; mkVertex 3 10;
            mkVertex 10 1; mkVertex 0 0]).
  - unfold int16_range. lia.
  - unfold int16_range. lia.
  - unfold int16_range. lia.
  - unfold int16_range. lia.
  - unfold valid_region. simpl. lia.
  - unfold upper_triangle, in_box, in_x, in_y.
    repeat constructor; simpl; lia.
  - vm_compute. reflexivity.
  - lia.
Defined.

(** X3. A call is defined, with no access outside an array, no division by
    zero and no overflow, when the polygon has between 1 and 8191 vertices
    with coordinates within 23170 of the origin, the region is valid, the
    scratch buffer has [2 * nVertices] entries and the output buffer
    [4 * nVertices]; it then returns a count between 0 and
    [4 * nVertices]. *)
Theorem call_is_defined (sourcePolygon : list vertex) (r : clipRect)
    (clipBuffer clippedPolygon : list vertex) :
  (1 <= length sourcePolygon)%nat ->
  4 * Z.of_nat (length sourcePolygon) <= 32767 ->
  valid_region r ->
  Forall safe_vertex sourcePolygon ->
  2 * Z.of_nat (length sourcePolygon) <= Z.of_nat (length clipBuffer) ->
  4 * Z.of_nat (length sourcePolygon) <= Z.of_nat (length clippedPolygon) ->
  exists c cb' cp',
    TwoAxisPolygonClip sourcePolygon (Z.of_nat (length sourcePolygon)) r
      clipBuffer clippedPolygon = Ok (c, cb', cp') /\
    0 <= c <= 4 * Z.of_nat (length sourcePolygon).
Proof.
  intros Hn Hmax Hvalid Hsafe Hcb Hcp.
  destruct (clip_total sourcePolygon r clipBuffer clippedPolygon
              Hn Hmax Hvalid Hsafe Hcb Hcp) as [[[c cb'] cp'] Hrun].
  exists c, cb', cp'. split; [exact Hrun|].
  exact (proj1 (clip_count _ _ _ _ _ _ _ _ (Nat2Z.is_nonneg _) Hmax Hrun)).
Qed.

Lemma call_is_defined_witness :
  exists c cb' cp',
    TwoAxisPolygonClip wide_triangle 3 box (blank 6) (blank 12)
      = Ok (c, cb', cp') /\
    0 <= c <= 4 * 3.
Proof.
  apply (call_is_defined wide_triangle box (blank 6) (blank 12)).
  - simpl. lia.
  - simpl. lia.
  - unfold valid_region. simpl. lia.
  - unfold wide_triangle, safe_vertex, safe_coord.
    repeat constructor; simpl; lia.
  - simpl. lia.
  - simpl. lia.
Defined.

(** X4. A call with [0 <= nVertices <= 8191] that returns has written at
    most two vertices per edge in each pass: the count is between 0 and
    [4 * nVertices], and the scratch buffer is as the caller passed it
    from the index [2 * nVertices] on. *)
Theorem count_at_most_four_per_vertex (sourcePolygon : list vertex)
    (nVertices : Z) (r : clipRect) (clipBuffer clippedPolygon : list vertex)
    (c : Z) (cb' cp' : list vertex) :
  0 <= nVertices -> 4 * nVertices <= 32767 ->
  TwoAxisPolygonClip sourcePolygon nVertices r clipBuffer clippedPolygon
    = Ok (c, cb', cp') ->
  0 <= c <= 4 * nVertices /\
  drop (Z.to_nat (2 * nVertices)) cb'
    = drop (Z.to_nat (2 * nVertices)) clipBuffer.
Proof.
  intros Hn Hmax Hrun.
  exact (clip_count _ _ _ _ _ _ _ _ Hn Hmax Hrun).
Qed.

Lemma count_at_most_four_per_vertex_witness :
  0 <= 7 <= 4 * 3 /\
  drop (Z.to_nat (2 * 3))
    [mkVertex 10 (-6); mkVertex 0 4; mkVertex 0 26; mkVertex 20 18;
     mkVertex 20 4; mkVertex 0 0; mkVertex 1 1]
  = drop (Z.to_nat (2 * 3)) (blank 6 ++ [mkVertex 1 1]).
Proof.
  apply (count_at_most_four_per_vertex wide_triangle 3 box
           (blank 6 ++ [mkVertex 1 1]) (blank 7) 7
           [mkVertex 10 (-6); mkVertex 0 4; mkVertex 0 26; mkVertex 20 18;
            mkVertex 20 4; mkVertex 0 0; mkVertex 1 1]
           [mkVertex 16 0; mkVertex 20 4; mkVertex 20 18; mkVertex 15 20;
            mkVertex 0 20; mkVertex 0 4; mkVertex 4 0]).
  - lia.
  - lia.
  - vm_compute. reflexivity.
Defined.

(** X5. A call that returns has kept the size of both buffers and, when
    the count is not negative, has left the output buffer as the caller
    passed it from the index of the count on. *)
Theorem buffers_untouched_beyond_count (sourcePolygon : list vertex)
    (nVertices : Z) (r : clipRect) (clipBuffer clippedPolygon : list vertex)
    (c : Z) (cb' cp' : list vertex) :
  TwoAxisPolygonClip sourcePolygon nVertices r clipBuffer clippedPolygon
    = Ok (c, cb', cp') ->
  length cb' = length clipBuffer /\
  length cp' = length clippedPolygon /\
  (0 <= c ->
   drop (Z.to_nat c) cp' = drop (Z.to_nat c) clippedPolygon).
Proof.
  intros Hrun.
  destruct (clip_Ok _ _ _ _ _ _ _ _ Hrun)
    as (v0 & s & _ & Hx & -> & Hrest).
  pose proof (x_pass_untouched _ _ _ _ _ _ _ _ Hx) as (_ & Hlen & _).
  split; [exact Hlen|].
  destruct Hrest as [(_ & -> & ->) | (_ & w0 & s' & _ & Hy & -> & ->)].
  - split; reflexivity.
  - pose proof (y_pass_untouched _ _ _ _ _ _ _ _ Hy) as (_ & Hlen' & Hdrop).
    split; [exact Hlen' | exact Hdrop].
Qed.

Lemma buffers_untouched_beyond_count_witness :
  length [mkVertex 10 10; mkVertex 5 0; mkVertex 5 0; mkVertex 5 7;
          mkVertex 0 0; mkVertex 0 0] = length (blank 6) /\
  length [mkVertex 10 10; mkVertex 5 7; mkVertex 5 0; mkVertex 5 0;
          mkVertex 3 3; mkVertex 4 4]
    = length (blank 4 ++ [mkVertex 3 3; mkVertex 4 4]) /\
  (0 <= 4 ->
   drop (Z.to_nat 4)
     [mkVertex 10 10; mkVertex 5 7; mkVertex 5 0; mkVertex 5 0;
      mkVertex 3 3; mkVertex 4 4]
   = drop (Z.to_nat 4) (blank 4 ++ [mkVertex 3 3; mkVertex 4 4])).
Proof.
  apply (buffers_untouched_beyond_count touching_triangle 3 square_region
           (blank 6) (blank 4 ++ [mkVertex 3 3; mkVertex 4 4]) 4).
  vm_compute. reflexivity.
Defined.

(** X6. Counts below 1 are not rejected.  With [nVertices = 0] the call
    still reads [sourcePolygon[0]]: on a non-empty array it returns 0 and
    leaves both buffers as they are, on an empty one the read is out of
    bounds.  With a negative [nVertices] (above -32768) the loop condition
    holds and the first edge reads [sourcePolygon[nVertices - 1]], out of
    bounds. *)
Theorem count_below_one (sourcePolygon : list vertex) (nVertices : Z)
    (r : clipRect) (clipBuffer clippedPolygon : list vertex) :
  -32768 < nVertices <= 0 ->
  (nVertices = 0 -> sourcePolygon <> [] ->
   TwoAxisPolygonClip sourcePolygon nVertices r clipBuffer clippedPolygon
     = Ok (0, clipBuffer, clippedPolygon)) /\
  (nVertices < 0 \/ sourcePolygon = [] ->
   TwoAxisPolygonClip sourcePolygon nVertices r clipBuffer clippedPolygon
     = Fault OutOfBounds).
Proof.
  intros Hn. split.
  - intros -> Hne. destruct sourcePolygon as [|v0 rest]; [contradiction|].
    reflexivity.
  - intros H. unfold TwoAxisPolygonClip. cbv zeta.
    destruct sourcePolygon as [|v0 rest]; [reflexivity|].
    destruct H as [Hneg|H]; [| discriminate].
    change (load (v0 :: rest) 0) with (@Ok vertex v0). rewrite bind_Ok_l.
    unfold x_pass, iterations.
    assert (Hmod : nVertices mod 65536 = nVertices + 65536).
    { symmetry. apply (Z.mod_unique _ _ (-1)); lia. }
    rewrite Hmod.
    replace (Z.to_nat (nVertices + 65536))
      with (S (Z.to_nat (nVertices + 65535))) by lia.
    cbn [while_dec]. rewrite Z2Nat.id by lia.
    assert (Hidx : to_int16 (nVertices + 65535) = nVertices - 1).
    { unfold to_int16.
      replace (nVertices + 65535 + 32768)
        with (nVertices + 32767 + 1 * 65536) by lia.
      rewrite Z.mod_add by lia. rewrite Z.mod_small by lia. lia. }
    rewrite Hidx. unfold x_edge, load.
    destruct (Z.ltb_spec (nVertices - 1) 0); [reflexivity | lia].
Qed.

Lemma count_below_one_witness :
  (-1 = 0 -> square <> [] ->
   TwoAxisPolygonClip square (-1) square_region (blank 8) (blank 8)
     = Ok (0, blank 8, blank 8)) /\
  (-1 < 0 \/ square = [] ->
   TwoAxisPolygonClip square (-1) square_region (blank 8) (blank 8)
     = Fault OutOfBounds).
Proof.
  apply (count_below_one square (-1) square_region (blank 8) (blank 8)).
  lia.
Defined.

(** X7. The Y pass is the X pass on exchanged axes: run on the array, the
    start point and the destination with [x] and [y] exchanged, against
    the same pair of bounds, the X pass ends in the state of the Y pass
    with [x] and [y] exchanged, or in the same fault. *)
Theorem passes_differ_by_axis_exchange (lo hi : Z) (a : list vertex)
    (k : nat) (s : pass_state) :
  y_pass lo hi a k s =
    result_map swap_state (x_pass lo hi (swap <$> a) k (swap_state s)).
Proof. apply y_pass_is_x_pass_swapped. Qed.

(** X8. In the X pass an edge that crosses one bound only, [c], is cut at
    the same vertex in both directions: walked from its inner end [a] to
    its outer end [b] the edge writes [a] and then the vertex on the bound,
    walked from [b] to [a] it writes the vertex on the bound first, and
    the two are the same [(c, v)], with [v] interpolated from [b]. *)
Theorem single_crossing_direction_independent (clip_left clip_right c : Z)
    (a b : vertex) (src1 src2 : list vertex) (i1 i2 : Z)
    (s1 s2 s1' s2' : pass_state) :
  clip_left <= clip_right ->
  clip_left <= x a <= clip_right ->
  (c = clip_left /\ x b < clip_left) \/
  (c = clip_right /\ clip_right < x b) ->
  load src1 i1 = Ok b -> rx1 s1 = x a -> ry1 s1 = y a ->
  load src2 i2 = Ok a -> rx1 s2 = x b -> ry1 s2 = y b ->
  pIndex s1 <= 32767 ->
  x_edge clip_left clip_right src1 i1 s1 = Ok s1' ->
  x_edge clip_left clip_right src2 i2 s2 = Ok s2' ->
  exists v,
    lerp (x b) (y b) (x a) (y a) c = Ok v /\
    dest s1' !! Z.to_nat (pIndex s1 + 1) = Some (mkVertex c (to_int16 v)) /\
    dest s2' !! Z.to_nat (pIndex s2) = Some (mkVertex c (to_int16 v)).
Proof.
  intros Hlr Ha [[-> Hb]|[-> Hb]] Hl1 Hx1 Hy1 Hl2 Hx2 Hy2 Hp R1 R2.
  - apply (single_crossing_same_vertex_left clip_left clip_right a b
             src1 src2 i1 i2 s1 s2 s1' s2'); try assumption; lia.
  - apply (single_crossing_same_vertex_right clip_left clip_right a b
             src1 src2 i1 i2 s1 s2 s1' s2'); try assumption; lia.
Qed.

Lemma single_crossing_direction_independent_witness :
  exists v,
    lerp (x (mkVertex (-5) 10)) (y (mkVertex (-5) 10))
         (x (mkVertex 5 0)) (y (mkVertex 5 0)) 0 = Ok v /\
    dest (mkState (-5) 10 2 [mkVertex 5 0; mkVertex 0 5])
      !! Z.to_nat (pIndex (mkState 5 0 0 (blank 2)) + 1)
      = Some (mkVertex 0 (to_int16 v)) /\
    dest (mkState 5 0 1 [mkVertex 0 5; mkVertex 0 0])
      !! Z.to_nat (pIndex (mkState (-5) 10 0 (blank 2)))
      = Some (mkVertex 0 (to_int16 v)).
Proof.
  apply (single_crossing_direction_independent 0 10 0
           (mkVertex 5 0) (mkVertex (-5) 10)
           [mkVertex (-5) 10] [mkVertex 5 0] 0 0
           (mkState 5 0 0 (blank 2)) (mkState (-5) 10 0 (blank 2))
           (mkState (-5) 10 2 [mkVertex 5 0; mkVertex 0 5])
           (mkState 5 0 1 [mkVertex 0 5; mkVertex 0 0])).
  - lia.
  - simpl. lia.
  - left. simpl. split; [reflexivity | lia].
  - reflexivity.
  - reflexivity.
  - reflexivity.
  - reflexivity.
  - reflexivity.
  - reflexivity.
  - simpl. lia.
  - vm_compute. reflexivity.
  - vm_compute. reflexivity.
Defined.

(** The body of a loop matters at the indices the loop visits only. *)
Lemma while_dec_ext (body1 body2 : Z -> pass_state -> result pass_state)
    (k : nat) :
  (forall k' s, (k' < k)%nat ->
     body1 (to_int16 (Z.of_nat k')) s = body2 (to_int16 (Z.of_nat k')) s) ->
  forall s, while_dec body1 k s = while_dec body2 k s.
Proof.
  induction k as [|k IH]; intros Hbody s; [reflexivity|].
  cbn [while_dec]. rewrite (Hbody k s) by lia.
  destruct (body2 (to_int16 (Z.of_nat k)) s) as [s1|f]; [| reflexivity].
  rewrite !bind_Ok_l. apply IH. intros k' t Hk. apply Hbody. lia.
Qed.

Lemma load_take (a : list vertex) (n : nat) (i : Z) :
  i < Z.of_nat n -> load (take n a) i = load a i.
Proof.
  intros Hi. unfold load. destruct (Z.ltb_spec i 0); [reflexivity|].
  rewrite lookup_take_lt by lia. reflexivity.
Qed.

(** X9. The call reads the first [nVertices] entries of the source array
    and no other: for [1 <= nVertices <= 32767] the result is the one of
    the call on the array cut after [nVertices] entries. *)
Theorem reads_first_entries_only (sourcePolygon : list vertex) (n : nat)
    (r : clipRect) (clipBuffer clippedPolygon : list vertex) :
  (1 <= n)%nat -> Z.of_nat n <= 32767 ->
  TwoAxisPolygonClip sourcePolygon (Z.of_nat n) r clipBuffer clippedPolygon
    = TwoAxisPolygonClip (take n sourcePolygon) (Z.of_nat n) r
        clipBuffer clippedPolygon.
Proof.
  intros Hn Hmax. unfold TwoAxisPolygonClip. cbv zeta.
  rewrite (load_take sourcePolygon n 0) by lia.
  destruct (load sourcePolygon 0) as [v0|f]; [| reflexivity].
  rewrite !bind_Ok_l. unfold x_pass.
  rewrite (while_dec_ext
             (x_edge (clipLeft r) (clipRight r) sourcePolygon)
             (x_edge (clipLeft r) (clipRight r) (take n sourcePolygon)));
    [reflexivity|].
  intros k' s Hk. rewrite iterations_nat in Hk by lia.
  unfold x_edge. rewrite load_take; [reflexivity|].
  rewrite to_int16_id by (unfold int16_range; lia). lia.
Qed.

Lemma reads_first_entries_only_witness :
  TwoAxisPolygonClip (square ++ wide_triangle) (Z.of_nat 4) square_region
    (blank 8) (blank 8)
  = TwoAxisPolygonClip (take 4 (square ++ wide_triangle)) (Z.of_nat 4)
      square_region (blank 8) (blank 8).
Proof.
  apply (reads_first_entries_only (square ++ wide_triangle) 4 square_region
           (blank 8) (blank 8)).
  - lia.
  - simpl. lia.
Defined.

(** X10. Each pass walks the polygon backwards.  For a polygon of 1 to
    32767 vertices that all lie between the left and the right bound, and
    a scratch buffer that holds them, a call that returns has left in the
    scratch buffer the first vertex followed by the other ones from the
    last to the second. *)
Theorem scratch_holds_reversed_polygon (sourcePolygon : list vertex)
    (r : clipRect) (clipBuffer clippedPolygon : list vertex)
    (c : Z) (cb' cp' : list vertex) :
  (1 <= length sourcePolygon)%nat ->
  Z.of_nat (length sourcePolygon) <= 32767 ->
  (length sourcePolygon <= length clipBuffer)%nat ->
  Forall (in_x (clipLeft r) (clipRight r)) sourcePolygon ->
  TwoAxisPolygonClip sourcePolygon (Z.of_nat (length sourcePolygon)) r
    clipBuffer clippedPolygon = Ok (c, cb', cp') ->
  take (length sourcePolygon) cb'
    = take 1 sourcePolygon ++ reverse (drop 1 sourcePolygon).
Proof.
  intros Hn Hmax Hcap Hin Hrun.
  destruct (clip_Ok _ _ _ _ _ _ _ _ Hrun) as (v0 & s & Hv0 & Hx & -> & _).
  rewrite iterations_nat in Hx by lia.
  assert (H0 : sourcePolygon !! 0%nat = Some v0).
  { apply load_Ok in Hv0. exact (proj2 Hv0). }
  destruct (length sourcePolygon) as [|k] eqn:En; [lia|].
  destruct (while_dec_copy
              (x_edge (clipLeft r) (clipRight r) sourcePolygon)
              sourcePolygon (in_x (clipLeft r) (clipRight r)) v0 H0
              (x_edge_copy _ _ _) k v0 0%nat clipBuffer)
    as (d & Hx' & _ & Htake); try lia.
  { rewrite Forall_lookup in Hin. exact (Hin _ _ H0). }
  { rewrite <- En, take_ge by lia. exact Hin. }
  unfold x_pass in Hx. change (Z.of_nat 0) with 0 in Hx'.
  rewrite Hx' in Hx. injection Hx as <-. simpl.
  change (0 + S k)%nat with (S k) in Htake. rewrite Htake.
  rewrite <- En, (take_ge sourcePolygon) by lia.
  destruct sourcePolygon as [|w rest]; [discriminate|].
  injection H0 as ->. reflexivity.
Qed.

Lemma scratch_holds_reversed_polygon_witness :
  take (length square)
    [mkVertex 0 0; mkVertex 0 10; mkVertex 10 10; mkVertex 10 0;
     mkVertex 0 0; mkVertex 0 0; mkVertex 0 0; mkVertex 0 0]
  = take 1 square ++ reverse (drop 1 square).
Proof.
  apply (scratch_holds_reversed_polygon square (mkClipRect 0 10 2 8)
           (blank 8) (blank 8) 4
           [mkVertex 0 0; mkVertex 0 10; mkVertex 10 10; mkVertex 10 0;
            mkVertex 0 0; mkVertex 0 0; mkVertex 0 0; mkVertex 0 0]
           [mkVertex 10 2; mkVertex 10 8; mkVertex 0 8; mkVertex 0 2;
            mkVertex 0 0; mkVertex 0 0; mkVertex 0 0; mkVertex 0 0]).
  - simpl. lia.
  - simpl. lia.
  - simpl. lia.
  - unfold square, in_x. repeat constructor; simpl; lia.
  - vm_compute. reflexivity.
Defined.

(** ** The contents of the buffers do not matter *)

Lemma result_rel_bind {A B : Type} (R : A -> A -> Prop) (R' : B -> B -> Prop)
    (m1 m2 : result A) (k1 k2 : A -> result B) :
  result_rel R m1 m2 ->
  (forall a1 a2, R a1 a2 -> result_rel R' (k1 a1) (k2 a2)) ->
  result_rel R' (m1 ≫= k1) (m2 ≫= k2).
Proof.
  destruct m1 as [a1|f1], m2 as [a2|f2]; simpl; intros H Hk;
    try contradiction.
  - apply Hk. exact H.
  - exact H.
Qed.

Lemma result_rel_refl {A : Type} (m : result A) : result_rel eq m m.
Proof. destruct m; reflexivity. Qed.

Lemma same_so_far_set_start (s1 s2 : pass_state) (a b : Z) :
  same_so_far s1 s2 -> same_so_far (set_start s1 a b) (set_start s2 a b).
Proof.
  intros (_ & _ & Hp & Hr & Hlen & Htake). unfold same_so_far. simpl.
  split; [reflexivity|]. split; [reflexivity|]. auto.
Qed.

Lemma same_so_far_written (s1 s2 : pass_state) (v : vertex) :
  same_so_far s1 s2 -> 0 <= pIndex s1 < Z.of_nat (length (dest s1)) ->
  same_so_far
    (mkState (rx1 s1) (ry1 s1) (to_int16 (pIndex s1 + 1))
       (<[Z.to_nat (pIndex s1) := v]> (dest s1)))
    (mkState (rx1 s2) (ry1 s2) (to_int16 (pIndex s2 + 1))
       (<[Z.to_nat (pIndex s2) := v]> (dest s2))).
Proof.
  intros (Hx & Hy & Hp & Hr & Hlen & Htake) Hin.
  unfold same_so_far. simpl. rewrite <- Hp.
  split; [exact Hx|]. split; [exact Hy|]. split; [reflexivity|].
  split; [apply to_int16_range|].
  split; [rewrite !length_insert; exact Hlen|].
  pose proof (to_int16_le (pIndex s1 + 1) ltac:(lia)) as Hle.
  assert (Hfull : take (S (Z.to_nat (pIndex s1)))
                    (<[Z.to_nat (pIndex s1) := v]> (dest s1))
                  = take (S (Z.to_nat (pIndex s1)))
                      (<[Z.to_nat (pIndex s1) := v]> (dest s2))).
  { rewrite !(take_S_r _ _ v) by (apply list_lookup_insert_eq; lia).
    rewrite !take_insert_ge by lia. rewrite Htake. reflexivity. }
  rewrite <- (Nat.min_l (Z.to_nat (to_int16 (pIndex s1 + 1)))
                (S (Z.to_nat (pIndex s1)))) by lia.
  rewrite <- !take_take. rewrite Hfull. reflexivity.
Qed.

Lemma emit_x_then_y_rel (s1 s2 : pass_state) (a b : Z) :
  same_so_far s1 s2 ->
  result_rel same_so_far (emit_x_then_y s1 a b) (emit_x_then_y s2 a b).
Proof.
  intros Hs. rewrite !emit_x_then_y_spec.
  pose proof Hs as (_ & _ & Hp & _ & Hlen & _). rewrite <- Hp, <- Hlen.
  destruct ((0 <=? pIndex s1) && (pIndex s1 <? Z.of_nat (length (dest s1))))
    eqn:E; simpl; [| reflexivity].
  rewrite Hp at 3 4. apply same_so_far_written; [exact Hs | lia].
Qed.

Lemma emit_y_then_x_rel (s1 s2 : pass_state) (a b : Z) :
  same_so_far s1 s2 ->
  result_rel same_so_far (emit_y_then_x s1 a b) (emit_y_then_x s2 a b).
Proof.
  intros Hs. rewrite !emit_y_then_x_spec.
  pose proof Hs as (_ & _ & Hp & _ & Hlen & _). rewrite <- Hp, <- Hlen.
  destruct ((0 <=? pIndex s1) && (pIndex s1 <? Z.of_nat (length (dest s1))))
    eqn:E; simpl; [| reflexivity].
  rewrite Hp at 3 4. apply same_so_far_written; [exact Hs | lia].
Qed.

Ltac same_start Hs :=
  let Hx := fresh "Hx" in
  let Hy := fresh "Hy" in
  pose proof Hs as (Hx & Hy & _); rewrite ?Hx, ?Hy; clear Hx Hy.

Lemma x_edge_rel (clip_left clip_right : Z) (a1 a2 : list vertex) (i : Z)
    (s1 s2 : pass_state) :
  load a1 i = load a2 i -> same_so_far s1 s2 ->
  result_rel same_so_far
    (x_edge clip_left clip_right a1 i s1)
    (x_edge clip_left clip_right a2 i s2).
Proof.
  intros Hl Hs. unfold x_edge. rewrite Hl.
  destruct (load a2 i) as [v2|f]; [| reflexivity].
  rewrite !bind_Ok_l. cbv zeta.
  apply (result_rel_bind same_so_far);
    [| intros t1 t2 Ht; apply same_so_far_set_start, Ht].
  same_start Hs.
  destruct (rx1 s2 >? x v2).
  - destruct ((rx1 s2 <? clip_left) || (x v2 >? clip_right)); [exact Hs|].
    apply (result_rel_bind same_so_far).
    { destruct (rx1 s2 >? clip_right); [| exact Hs].
      destruct (lerp (rx1 s2) (ry1 s2) (x v2) (y v2) clip_right);
        [apply same_so_far_set_start, Hs | reflexivity]. }
    intros t1 t2 Ht. apply (result_rel_bind same_so_far).
    { same_start Ht. apply emit_x_then_y_rel, Ht. }
    intros u1 u2 Hu. destruct (x v2 <? clip_left); [| exact Hu].
    same_start Hu.
    destruct (lerp (x v2) (y v2) (rx1 u2) (ry1 u2) clip_left);
      [apply emit_y_then_x_rel, Hu | reflexivity].
  - destruct ((x v2 <? clip_left) || (rx1 s2 >? clip_right)); [exact Hs|].
    apply (result_rel_bind same_so_far).
    { destruct (rx1 s2 <? clip_left); [| exact Hs].
      destruct (lerp (rx1 s2) (ry1 s2) (x v2) (y v2) clip_left);
        [apply same_so_far_set_start, Hs | reflexivity]. }
    intros t1 t2 Ht. apply (result_rel_bind same_so_far).
    { same_start Ht. apply emit_x_then_y_rel, Ht. }
    intros u1 u2 Hu. destruct (x v2 >? clip_right); [| exact Hu].
    same_start Hu.
    destruct (lerp (x v2) (y v2) (rx1 u2) (ry1 u2) clip_right);
      [apply emit_y_then_x_rel, Hu | reflexivity].
Qed.

Lemma y_edge_rel (clip_top clip_bottom : Z) (a1 a2 : list vertex) (i : Z)
    (s1 s2 : pass_state) :
  load a1 i = load a2 i -> same_so_far s1 s2 ->
  result_rel same_so_far
    (y_edge clip_top clip_bottom a1 i s1)
    (y_edge clip_top clip_bottom a2 i s2).
Proof.
  intros Hl Hs. unfold y_edge. rewrite Hl.
  destruct (load a2 i) as [v2|f]; [| reflexivity].
  rewrite !bind_Ok_l. cbv zeta.
  apply (result_rel_bind same_so_far);
    [| intros t1 t2 Ht; apply same_so_far_set_start, Ht].
  same_start Hs.
  destruct (ry1 s2 >? y v2).
  - destruct ((ry1 s2 <? clip_top) || (y v2 >? clip_bottom)); [exact Hs|].
    apply (result_rel_bind same_so_far).
    { destruct (ry1 s2 >? clip_bottom); [| exact Hs].
      destruct (lerp (ry1 s2) (rx1 s2) (y v2) (x v2) clip_bottom);
        [apply same_so_far_set_start, Hs | reflexivity]. }
    intros t1 t2 Ht. apply (result_rel_bind same_so_far).
    { same_start Ht. apply emit_x_then_y_rel, Ht. }
    intros u1 u2 Hu. destruct (y v2 <? clip_top); [| exact Hu].
    same_start Hu.
    destruct (lerp (y v2) (x v2) (ry1 u2) (rx1 u2) clip_top);
      [apply emit_x_then_y_rel, Hu | reflexivity].
  - destruct ((y v2 <? clip_top) || (ry1 s2 >? clip_bottom)); [exact Hs|].
    apply (result_rel_bind same_so_far).
    { destruct (ry1 s2 <? clip_top); [| exact Hs].
      destruct (lerp (ry1 s2) (rx1 s2) (y v2) (x v2) clip_top);
        [apply same_so_far_set_start, Hs | reflexivity]. }
    intros t1 t2 Ht. apply (result_rel_bind same_so_far).
    { same_start Ht. apply emit_x_then_y_rel, Ht. }
    intros u1 u2 Hu. destruct (y v2 >? clip_bottom); [| exact Hu].
    same_start Hu.
    destruct (lerp (y v2) (x v2) (ry1 u2) (rx1 u2) clip_bottom);
      [apply emit_x_then_y_rel, Hu | reflexivity].
Qed.

Lemma while_dec_rel (body1 body2 : Z -> pass_state -> result pass_state)
    (k : nat) :
  (forall k' s1 s2, (k' < k)%nat -> same_so_far s1 s2 ->
     result_rel same_so_far (body1 (to_int16 (Z.of_nat k')) s1)
                            (body2 (to_int16 (Z.of_nat k')) s2)) ->
  forall s1 s2, same_so_far s1 s2 ->
    result_rel same_so_far (while_dec body1 k s1) (while_dec body2 k s2).
Proof.
  induction k as [|k IH]; intros Hbody s1 s2 Hs; [exact Hs|].
  cbn [while_dec]. apply (result_rel_bind same_so_far).
  - apply Hbody; [lia | exact Hs].
  - intros t1 t2 Ht. apply IH; [| exact Ht].
    intros k' u1 u2 Hk Hu. apply Hbody; [lia | exact Hu].
Qed.

(** Two calls that differ in the contents of the two buffers only. *)
Lemma clip_rel (sourcePolygon : list vertex) (nVertices : Z) (r : clipRect)
    (cb1 cp1 cb2 cp2 : list vertex) :
  length cb1 = length cb2 -> length cp1 = length cp2 ->
  result_rel same_outcome
    (TwoAxisPolygonClip sourcePolygon nVertices r cb1 cp1)
    (TwoAxisPolygonClip sourcePolygon nVertices r cb2 cp2).
Proof.
  intros Hcb Hcp. unfold TwoAxisPolygonClip. cbv zeta.
  destruct (load sourcePolygon 0) as [v0|f]; [| reflexivity].
  rewrite !bind_Ok_l.
  apply (result_rel_bind same_so_far).
  { unfold x_pass. apply while_dec_rel.
    - intros k' s1 s2 _ Hs. apply x_edge_rel; [reflexivity | exact Hs].
    - unfold same_so_far, int16_range. simpl.
      repeat split; try reflexivity; lia. }
  intros s1 s2 (_ & _ & Hp & Hr & Hlen & Htake). rewrite <- Hp.
  destruct (Z.ltb_spec (pIndex s1) 3) as [Hlt|Hge].
  { simpl. split; [reflexivity | lia]. }
  unfold int16_range in Hr.
  assert (Hload : forall i, i < pIndex s1 ->
            load (dest s1) i = load (dest s2) i).
  { intros i Hi. unfold load. destruct (Z.ltb_spec i 0); [reflexivity|].
    rewrite <- (lookup_take_lt (dest s1) (Z.to_nat (pIndex s1))) by lia.
    rewrite <- (lookup_take_lt (dest s2) (Z.to_nat (pIndex s1))) by lia.
    rewrite Htake. reflexivity. }
  rewrite (Hload 0) by lia.
  destruct (load (dest s2) 0) as [w0|f]; [| reflexivity].
  rewrite !bind_Ok_l.
  apply (result_rel_bind same_so_far).
  { unfold y_pass, iterations. rewrite Z.mod_small by lia.
    apply while_dec_rel.
    - intros k' t1 t2 Hk Ht. apply y_edge_rel; [| exact Ht].
      apply Hload. rewrite to_int16_id by (unfold int16_range; lia). lia.
    - unfold same_so_far, int16_range. simpl.
      repeat split; try reflexivity; lia. }
  intros t1 t2 (_ & _ & Hq & _ & _ & Htake'). simpl.
  split; [exact Hq | intros _; exact Htake'].
Qed.

(** X11. The buffers need not be initialised: two calls that differ only in
    what the scratch and output buffers hold, not in their sizes, end in
    the same fault or return the same count and, when the count is at
    least 3, the same vertices below the count. *)
Theorem buffer_contents_do_not_matter (sourcePolygon : list vertex)
    (nVertices : Z) (r : clipRect) (cb1 cp1 cb2 cp2 : list vertex) :
  length cb1 = length cb2 -> length cp1 = length cp2 ->
  (forall f,
     TwoAxisPolygonClip sourcePolygon nVertices r cb1 cp1 = Fault f ->
     TwoAxisPolygonClip sourcePolygon nVertices r cb2 cp2 = Fault f) /\
  (forall c cb1' cp1',
     TwoAxisPolygonClip sourcePolygon nVertices r cb1 cp1
       = Ok (c, cb1', cp1') ->
     exists cb2' cp2',
       TwoAxisPolygonClip sourcePolygon nVertices r cb2 cp2
         = Ok (c, cb2', cp2') /\
       (3 <= c -> take (Z.to_nat c) cp1' = take (Z.to_nat c) cp2')).
Proof.
  intros Hcb Hcp.
  pose proof (clip_rel sourcePolygon nVertices r cb1 cp1 cb2 cp2 Hcb Hcp)
    as Hrel.
  destruct (TwoAxisPolygonClip sourcePolygon nVertices r cb1 cp1)
    as [[[c1 d1] q1]|f1];
  destruct (TwoAxisPolygonClip sourcePolygon nVertices r cb2 cp2)
    as [[[c2 d2] q2]|f2]; simpl in Hrel; try contradiction.
  - destruct Hrel as [-> Htake]. split; [discriminate|].
    intros c cb1' cp1' H. injection H as <- <- <-.
    exists d2, q2. split; [reflexivity | exact Htake].
  - subst f2. split; [intros f H; exact H | discriminate].
Qed.

Lemma buffer_contents_do_not_matter_witness :
  (forall f,
     TwoAxisPolygonClip square 4 square_region (blank 8) (blank 8)
       = Fault f ->
     TwoAxisPolygonClip square 4 square_region
       (square ++ square) (wide_triangle ++ wide_triangle ++ blank 2)
       = Fault f) /\
  (forall c cb1' cp1',
     TwoAxisPolygonClip square 4 square_region (blank 8) (blank 8)
       = Ok (c, cb1', cp1') ->
     exists cb2' cp2',
       TwoAxisPolygonClip square 4 square_region
         (square ++ square) (wide_triangle ++ wide_triangle ++ blank 2)
         = Ok (c, cb2', cp2') /\
       (3 <= c -> take (Z.to_nat c) cp1' = take (Z.to_nat c) cp2')).
Proof.
  apply (buffer_contents_do_not_matter square 4 square_region
           (blank 8) (blank 8)
           (square ++ square) (wide_triangle ++ wide_triangle ++ blank 2));
    reflexivity.
Defined.
